(** * SWIPE-THEM: classification scorer, adaptive buffer and action/undo engine

    A shallow embedding of the TypeScript engines of the repository,
    together with the properties its specification states about them.

    Conventions of the embedding.
    - JavaScript strings are [string]s; [toLowerCase] folds the ASCII letters
      only.  Every pattern the code searches for is pure ASCII, and no code
      unit outside ASCII lower-cases to an ASCII letter within Latin-1, so the
      pattern tests are unaffected.
    - JavaScript numbers that carry scores are exact rationals ([Q]); the
      sizes of the buffer configuration are naturals, clock readings and
      array indices are integers ([Z]).
    - [string | null] and optional fields are [option string]; a value is
      "truthy" when it is present and not the empty string.
    - A promise is modelled by its outcome; the callbacks handed to the
      engines are modelled by the outcomes of their invocations. *)

From Stdlib Require Import ZArith QArith Qminmax Lqa Bool String Ascii List Lia.
From stdpp Require Import gmap strings list fin_maps.

Close Scope Q_scope.

(** ** JavaScript string and array primitives used by the engines *)
Module JS.

Definition lower_ascii (c : ascii) : ascii :=
  let n := nat_of_ascii c in
  if (65 <=? n)%nat && (n <=? 90)%nat then ascii_of_nat (n + 32) else c.

(** [String.prototype.toLowerCase] *)
Fixpoint toLowerCase (s : string) : string :=
  match s with
  | EmptyString => EmptyString
  | String c s' => String (lower_ascii c) (toLowerCase s')
  end.

(** [String.prototype.startsWith] *)
Fixpoint startsWith (s p : string) : bool :=
  match p, s with
  | EmptyString, _ => true
  | String _ _, EmptyString => false
  | String a p', String b s' => Ascii.eqb a b && startsWith s' p'
  end.

(** [String.prototype.includes] *)
Fixpoint includes (s p : string) : bool :=
  startsWith s p ||
  match s with
  | EmptyString => false
  | String _ s' => includes s' p
  end.

(** [String.prototype.endsWith] *)
Fixpoint endsWith (s p : string) : bool :=
  String.eqb s p ||
  match s with
  | EmptyString => false
  | String _ s' => endsWith s' p
  end.

(** [s.split(sep)] for a separator of one character. *)
Fixpoint split (sep : ascii) (s : string) : list string :=
  match s with
  | EmptyString => [EmptyString]
  | String c s' =>
      if Ascii.eqb c sep then EmptyString :: split sep s'
      else match split sep s' with
           | [] => [String c EmptyString]
           | piece :: pieces => String c piece :: pieces
           end
  end.

(** [s.replace(c, "")] for a pattern of one character: the first
    occurrence is dropped. *)
Fixpoint remove_first (c : ascii) (s : string) : string :=
  match s with
  | EmptyString => EmptyString
  | String a s' => if Ascii.eqb a c then s' else String a (remove_first c s')
  end.

(** Truthiness of a [string | null | undefined] value. *)
Definition truthy (o : option string) : bool :=
  match o with
  | Some s => negb (String.eqb s "")
  | None => false
  end.

(** [Array.prototype.includes] on an array of strings. *)
Definition arr_includes (l : list string) (x : string) : bool :=
  existsb (String.eqb x) l.

(** [v || d] on numbers: [0] is falsy. *)
Definition num_or (v d : Q) : Q := if Qeq_bool v 0 then d else v.

(** The longest prefix of characters satisfying [p], and the rest. *)
Fixpoint span (p : ascii -> bool) (s : string) : string * string :=
  match s with
  | EmptyString => (EmptyString, EmptyString)
  | String c s' =>
      if p c then let '(a, b) := span p s' in (String c a, b)
      else (EmptyString, s)
  end.

Definition is_upper (c : ascii) : bool :=
  let n := nat_of_ascii c in (65 <=? n)%nat && (n <=? 90)%nat.
Definition is_lower (c : ascii) : bool :=
  let n := nat_of_ascii c in (97 <=? n)%nat && (n <=? 122)%nat.
Definition is_letter (c : ascii) : bool := is_upper c || is_lower c.
(** The class [\s] restricted to Latin-1. *)
Definition is_space (c : ascii) : bool :=
  let n := nat_of_ascii c in
  ((9 <=? n)%nat && (n <=? 13)%nat) || (n =? 32)%nat || (n =? 160)%nat.

End JS.

(** ** Data model (lib/types.ts) *)

Inductive Provider := gmail | outlook | yahoo | imap.

Inductive Category :=
  newsletter | promo | social | transactional | personal | unknown.

Record ListUnsubscribe := {
  http : option string;
  mailto : option string
}.

Record Headers := {
  precedence : option string;
  returnPath : option string;
  xMailer : option string;
  xCampaign : option string;
  xNewsletter : option string;
  xList : option string;
  xSgEid : option string;
  xMailgunSid : option string;
  xMailchimp : option string
}.

(** [NormalizedEmail]; the untyped [metadata] bag is read by none of the
    engines and is left out. *)
Record NormalizedEmail := {
  id : string;
  provider : Provider;
  providerId : string;
  sender : string;
  senderName : option string;
  senderDomain : string;
  subject : string;
  preview : string;
  receivedAt : string;
  timestamp : Z;
  listUnsubscribe : ListUnsubscribe;
  category : Category;
  labels : list string;
  isRead : bool;
  msgSize : Z;
  headers : Headers
}.

Record Signals := {
  sig_listUnsubscribe : bool;
  senderReputation : Q;
  providerCategory : Category;
  sig_frequencyScore : Q;
  htmlSignals : Q;
  headerSignals : Q
}.

Record DetectionResult := {
  type : Category;
  confidence : Q;
  signals : Signals
}.

Record SenderStats := {
  frequencyScore : Q;
  reputationScore : Q
}.

Inductive DomainSafety := safe_to_nuke | caution | never_nuke | unknown_domain.

(** [DOMAIN_SAFETY] of lib/types.ts. *)
Module DOMAIN_SAFETY.
Definition neverNuke : list string :=
  [ "google.com"; "gmail.com"; "apple.com"; "icloud.com"; "microsoft.com";
    "amazon.com"; "facebook.com"; "meta.com"; "twitter.com"; "x.com";
    "linkedin.com"; "gov"; "edu"; "mil";
    "chase.com"; "bankofamerica.com"; "wellsfargo.com"; "citibank.com";
    "usbank.com";
    "united.com"; "delta.com"; "aa.com"; "southwest.com" ].
Definition caution : list string :=
  [ "ebay.com"; "etsy.com"; "shopify.com"; "netflix.com"; "spotify.com";
    "hulu.com"; "disneyplus.com"; "hbomax.com" ].
Definition safeToNuke : list string :=
  [ "mailchimp.com"; "sendgrid.net"; "mailgun.org"; "constantcontact.com";
    "substack.com"; "campaignmonitor.com"; "convertkit.com"; "klaviyo.com";
    "mailerlite.com"; "sendinblue.com"; "drip.com"; "beehiiv.com";
    "revue.co"; "buttondown.email"; "getresponse.com";
    "activecampaign.com" ].
End DOMAIN_SAFETY.

(** ** Newsletter detection engine (lib/detection/newsletter.ts) *)
Module Detection.
Import JS.

Definition MARKETING_DOMAINS : list string :=
  [ "mailchimp.com"; "sendgrid.net"; "mailgun.org"; "constantcontact.com";
    "substack.com"; "campaignmonitor.com"; "convertkit.com"; "klaviyo.com";
    "mailerlite.com"; "sendinblue.com"; "drip.com"; "beehiiv.com";
    "getresponse.com"; "activecampaign.com"; "aweber.com"; "mailjet.com";
    "sparkpost.com"; "postmarkapp.com"; "mandrill.com"; "sailthru.com";
    "braze.com"; "iterable.com"; "customer.io"; "intercom.com" ].

Definition TRANSACTIONAL_PATTERNS : list string :=
  [ "noreply"; "no-reply"; "do-not-reply"; "donotreply"; "receipt"; "order";
    "invoice"; "confirmation"; "shipping"; "tracking"; "security"; "verify";
    "verification"; "password"; "reset"; "account"; "billing"; "payment";
    "support"; "help"; "service" ].

Definition transactionalSubjectPatterns : list string :=
  [ "order confirmation"; "shipping confirmation"; "your receipt";
    "your order"; "password reset"; "verify your"; "confirm your";
    "security alert"; "login attempt"; "payment received"; "invoice";
    "statement"; "appointment"; "reservation"; "booking confirmation";
    "flight"; "itinerary" ].

Definition personalDomains : list string :=
  [ "gmail.com"; "yahoo.com"; "hotmail.com"; "outlook.com"; "icloud.com";
    "aol.com"; "protonmail.com"; "zoho.com"; "fastmail.com" ].

(** [sender.split("@")[0]] *)
Definition localPart (sender : string) : string :=
  match split "@" sender with
  | piece :: _ => piece
  | [] => EmptyString
  end.

(** The test [/^[a-z]+[._][a-z]+$/i]. *)
Definition test_name_dot_name (s : string) : bool :=
  match span is_letter s with
  | (String _ _, String c rest) =>
      (Ascii.eqb c "." || Ascii.eqb c "_") &&
      match span is_letter rest with
      | (String _ _, EmptyString) => true
      | _ => false
      end
  | _ => false
  end.

(** A capitalised word [[A-Z][a-z]+] at the head of [s]; the rest. *)
Definition capitalised_word (s : string) : option string :=
  match s with
  | String c s' =>
      if is_upper c then
        match span is_lower s' with
        | (String _ _, rest) => Some rest
        | _ => None
        end
      else None
  | EmptyString => None
  end.

(** The test [/^([A-Z][a-z]+)\s+([A-Z][a-z]+)$/]. *)
Definition test_first_last (s : string) : bool :=
  match capitalised_word s with
  | Some rest =>
      match span is_space rest with
      | (String _ _, rest') =>
          match capitalised_word rest' with
          | Some EmptyString => true
          | _ => false
          end
      | _ => false
      end
  | None => false
  end.

Definition isLikelyPersonalSender (email : NormalizedEmail) : bool :=
  if arr_includes personalDomains (toLowerCase (senderDomain email))
     && test_name_dot_name (localPart (sender email))
  then true
  else match senderName email with
       | Some name => truthy (Some name) && test_first_last name
       | None => false
       end.

Definition isTransactional (email : NormalizedEmail) : bool :=
  let lowerSender := toLowerCase (sender email) in
  let lowerSubject := toLowerCase (subject email) in
  if existsb (includes lowerSender) TRANSACTIONAL_PATTERNS then true
  else existsb (includes lowerSubject) transactionalSubjectPatterns.

(** Rule 1: List-Unsubscribe header detection. *)
Definition checkListUnsubscribe (email : NormalizedEmail) : Q :=
  if truthy (http (listUnsubscribe email))
     || truthy (mailto (listUnsubscribe email))
  then 1%Q else 0%Q.

(** Rule 2: provider category detection. *)
Definition checkProviderCategory (email : NormalizedEmail) : Q :=
  if arr_includes (labels email) "CATEGORY_PROMOTIONS"
     || arr_includes (labels email) "CATEGORY_SOCIAL"
  then 0.95%Q
  else if arr_includes (labels email) "CATEGORY_UPDATES" then 0.5%Q
  else 0%Q.

(** [headers.returnPath.split("@")[1]?.toLowerCase()?.replace(">", "")] *)
Definition returnPathDomain (rp : string) : option string :=
  match split "@" rp with
  | _ :: piece :: _ => Some (remove_first ">" (toLowerCase piece))
  | _ => None
  end.

(** Rule 3: sender domain pattern matching. *)
Definition checkSenderDomain (email : NormalizedEmail) : Q :=
  let lowerDomain := toLowerCase (senderDomain email) in
  if existsb (includes lowerDomain) MARKETING_DOMAINS then 0.9%Q
  else
    match returnPath (headers email) with
    | Some rp =>
        if truthy (Some rp) then
          match returnPathDomain rp with
          | Some d =>
              if existsb (includes d) MARKETING_DOMAINS then 0.85%Q else 0%Q
          | None => 0%Q
          end
        else 0%Q
    | None => 0%Q
    end.

(** [headers.h?.toLowerCase() === v] *)
Definition header_is (h : option string) (v : string) : bool :=
  match h with
  | Some s => String.eqb (toLowerCase s) v
  | None => false
  end.

(** [headers.h?.toLowerCase().includes(v)] *)
Definition header_includes (h : option string) (v : string) : bool :=
  match h with
  | Some s => includes (toLowerCase s) v
  | None => false
  end.

(** One step [if (c) score = Math.max(score, w)] of the header analysis. *)
Definition bump (c : bool) (w : Q) (score : Q) : Q :=
  if c then Qmax score w else score.

Definition analyzeHeaders (email : NormalizedEmail) : Q :=
  let h := headers email in
  let score := 0%Q in
  let score := bump (header_is (precedence h) "bulk") 0.8 score in
  let score := bump (header_includes (xMailer h) "campaign") 0.7 score in
  let score := bump (truthy (xList h)) 0.75 score in
  let score := bump (truthy (xCampaign h)) 0.8 score in
  let score := bump (truthy (xNewsletter h)) 0.9 score in
  let score := bump (truthy (xSgEid h)) 0.75 score in
  let score := bump (truthy (xMailgunSid h)) 0.75 score in
  let score := bump (truthy (xMailchimp h)) 0.85 score in
  score.

Definition overrideSignals (email : NormalizedEmail) : Signals :=
  {| sig_listUnsubscribe := false;
     senderReputation := 0;
     providerCategory := category email;
     sig_frequencyScore := 0;
     htmlSignals := 0;
     headerSignals := 0 |}.

(** The weighted sum of [detectNewsletter], before thresholding. *)
Definition finalScore (email : NormalizedEmail)
    (senderStats : option SenderStats) : Q :=
  let listUnsubscribeScore := checkListUnsubscribe email in
  let providerCategoryScore := checkProviderCategory email in
  let senderDomainScore := checkSenderDomain email in
  let headerScore := analyzeHeaders email in
  let frequencyScore :=
    match senderStats with
    | Some st => num_or (frequencyScore st) 0
    | None => 0%Q
    end in
  let reputationScore :=
    match senderStats with
    | Some st => num_or (reputationScore st) 0.5
    | None => 0.5%Q
    end in
  (listUnsubscribeScore * 0.35 +
   Qmax reputationScore senderDomainScore * 0.25 +
   providerCategoryScore * 0.2 +
   frequencyScore * 0.1 +
   0 * 0.05 +
   headerScore * 0.05)%Q.

Definition category_eqb (a b : Category) : bool :=
  match a, b with
  | newsletter, newsletter | promo, promo | social, social
  | transactional, transactional | personal, personal
  | unknown, unknown => true
  | _, _ => false
  end.

Definition detectNewsletter (email : NormalizedEmail)
    (senderStats : option SenderStats) : DetectionResult :=
  if isTransactional email then
    {| type := transactional; confidence := 0.9;
       signals := overrideSignals email |}
  else if isLikelyPersonalSender email then
    {| type := personal; confidence := 0.8;
       signals := overrideSignals email |}
  else
    let listUnsubscribeScore := checkListUnsubscribe email in
    let headerScore := analyzeHeaders email in
    let frequencyScore :=
      match senderStats with
      | Some st => num_or (frequencyScore st) 0
      | None => 0%Q
      end in
    let reputationScore :=
      match senderStats with
      | Some st => num_or (reputationScore st) 0.5
      | None => 0.5%Q
      end in
    let finalScore := finalScore email senderStats in
    let type :=
      if Qle_bool 0.75 finalScore then newsletter
      else if Qle_bool 0.5 finalScore then promo
      else if Qle_bool 0.3 finalScore then social
      else unknown in
    let type :=
      if arr_includes (labels email) "CATEGORY_PROMOTIONS"
         && category_eqb type unknown then promo
      else if arr_includes (labels email) "CATEGORY_SOCIAL"
              && category_eqb type unknown then social
      else type in
    {| type := type;
       confidence := Qmin finalScore 1;
       signals :=
         {| sig_listUnsubscribe := negb (Qle_bool listUnsubscribeScore 0);
            senderReputation := reputationScore;
            providerCategory := category email;
            sig_frequencyScore := frequencyScore;
            htmlSignals := 0;
            headerSignals := headerScore |} |}.

Fixpoint batchDetectNewsletters (emails : list NormalizedEmail)
    (senderStatsMap : option (gmap string SenderStats))
    (results : gmap string DetectionResult) : gmap string DetectionResult :=
  match emails with
  | [] => results
  | email :: rest =>
      let senderStats :=
        match senderStatsMap with
        | Some m => m !! sender email
        | None => None
        end in
      batchDetectNewsletters rest senderStatsMap
        (<[id email := detectNewsletter email senderStats]> results)
  end.

Definition matches_domain (lowerDomain d : string) : bool :=
  String.eqb lowerDomain d || endsWith lowerDomain ("." +:+ d).

Definition getDomainSafetyCategory (domain : string) : DomainSafety :=
  let lowerDomain := toLowerCase domain in
  if existsb (matches_domain lowerDomain) DOMAIN_SAFETY.neverNuke
  then never_nuke
  else if existsb (matches_domain lowerDomain) DOMAIN_SAFETY.caution
  then caution
  else if existsb (matches_domain lowerDomain) DOMAIN_SAFETY.safeToNuke
  then safe_to_nuke
  else unknown_domain.

Record BlockCheck := {
  allowed : bool;
  reason : option string
}.

Definition canBlockSender (email : NormalizedEmail) : BlockCheck :=
  if isLikelyPersonalSender email then
    {| allowed := false; reason := Some "Cannot block personal senders" |}
  else if isTransactional email then
    {| allowed := false;
       reason := Some "Cannot block transactional senders" |}
  else
    match getDomainSafetyCategory (senderDomain email) with
    | never_nuke =>
        {| allowed := false;
           reason := Some "Cannot block senders from protected domains" |}
    | _ => {| allowed := true; reason := None |}
    end.

Record NukeCheck := {
  nuke_allowed : bool;
  requiresConfirmation : bool;
  nuke_reason : option string
}.

Definition canNukeDomain (domain : string) : NukeCheck :=
  match getDomainSafetyCategory domain with
  | never_nuke =>
      {| nuke_allowed := false; requiresConfirmation := false;
         nuke_reason := Some "This domain cannot be nuked (protected)" |}
  | caution =>
      {| nuke_allowed := true; requiresConfirmation := true;
         nuke_reason :=
           Some "This domain may contain important emails. Please confirm." |}
  | _ =>
      {| nuke_allowed := true; requiresConfirmation := false;
         nuke_reason := None |}
  end.

End Detection.


(** ** Promises

    How a promise settles.  [x ← p; k] awaits [p] inside an [async]
    function: the function goes on with the value [p] resolves to, and
    settles as rejected, with the same reason, when [p] is rejected. *)
Inductive Settled (A : Type) :=
| Resolved (value : A)
| Rejected (reason : string).
Arguments Resolved {A}.
Arguments Rejected {A}.

#[export] Instance Settled_ret : MRet Settled := λ A x, Resolved x.
#[export] Instance Settled_bind : MBind Settled := λ A B k p,
  match p with
  | Resolved x => k x
  | Rejected reason => Rejected reason
  end.


(** Values stored in the untyped [metadata] bags of the results. *)
Inductive MetaValue :=
| MStr (s : string)
| MOptStr (s : option string)
| MBool (b : bool).

Definition MetaBag := list (string * MetaValue).

(** ** Unsubscribe engine (lib/engines/unsubscribe.ts) *)
Module Unsubscribe.
Import JS Detection.

(** [SUSPICIOUS_PATTERNS]: each regular expression is a literal text matched
    anywhere, case-insensitively; the list holds the literal texts. *)
Definition SUSPICIOUS_PATTERNS : list string :=
  [ "track."; "redirect."; "click."; "bit.ly"; "t.co"; "goo.gl"; "tinyurl";
    "ow.ly" ].

Definition isSuspiciousLink (url : string) : bool :=
  existsb (includes (toLowerCase url)) SUSPICIOUS_PATTERNS.

Record SafetyCheck := {
  safe : bool;
  safety_requiresConfirmation : bool;
  safety_reason : option string
}.

Definition checkUnsubscribeSafety (email : NormalizedEmail) : SafetyCheck :=
  let blockCheck := canBlockSender email in
  if negb (allowed blockCheck) then
    {| safe := false; safety_requiresConfirmation := false;
       safety_reason := reason blockCheck |}
  else if match http (listUnsubscribe email) with
          | Some url => truthy (Some url) && isSuspiciousLink url
          | None => false
          end then
    {| safe := true; safety_requiresConfirmation := true;
       safety_reason :=
         Some "Unsubscribe link looks suspicious. Please confirm." |}
  else
    match getDomainSafetyCategory (senderDomain email) with
    | caution =>
        {| safe := true; safety_requiresConfirmation := true;
           safety_reason :=
             Some "This sender is from a domain that may send important emails." |}
    | _ =>
        {| safe := true; safety_requiresConfirmation := false;
           safety_reason := None |}
    end.

Inductive Method := GET | POST.

(** What one [fetch] call does: a response with its status, or a thrown
    error (network failure, abort on timeout) with its message. *)
Inductive FetchOutcome :=
| Response (status : Z)
| NetworkError (message : string).

(** The [error] texts of [httpUnsubscribe]: the fixed refusal of a link that
    is not HTTPS, ["HTTP error: <status>"], or the message of a thrown
    error. *)
Inductive HttpError :=
| OnlyHttps
| HttpStatus (status : Z)
| Thrown (message : string).

Record HttpResult := {
  http_success : bool;
  http_error : option HttpError
}.

(** [response.ok || response.status === 204] *)
Definition ok_status (status : Z) : bool :=
  ((200 <=? status)%Z && (status <=? 299)%Z) || (status =? 204)%Z.

Section WithPlatform.

(** The network: the outcome of the [fetch] issued with a given method on a
    given URL during the attempt numbered [retryCount]. *)
Variable fetch : Method -> string -> Z -> FetchOutcome.

(** The platform's [URL] and [URLSearchParams]: [parseURL s] is the pair of
    [pathname] and [search] of [new URL(s)], or [None] when the constructor
    throws; [searchParam search k] is [new URLSearchParams(search).get(k)]. *)
Variable parseURL : string -> option (string * string).
Variable searchParam : string -> string -> option string.

(** One pass through the body of [httpUnsubscribe], up to the point where it
    either succeeds or would retry: [inl] on success, [inr] with the error
    the pass reports when no retry is left (the status reported is the one
    of the GET response). *)
Definition httpPass (url : string) (retryCount : Z) : unit + HttpError :=
  match fetch GET url retryCount with
  | NetworkError m => inr (Thrown m)
  | Response status =>
      if ok_status status then inl tt
      else if (status =? 405)%Z || (status =? 400)%Z then
        match fetch POST url retryCount with
        | NetworkError m => inr (Thrown m)
        | Response postStatus =>
            if ok_status postStatus then inl tt
            else inr (HttpStatus status)
        end
      else inr (HttpStatus status)
  end.

(** [httpUnsubscribe(url, retryCount)].  The only recursive call is made with
    [retryCount = 1], which cannot recurse again; it is written out. *)
Definition httpUnsubscribe (url : string) (retryCount : Z) : HttpResult :=
  if negb (startsWith url "https://") then
    {| http_success := false;
       http_error := Some OnlyHttps |}
  else
    match httpPass url retryCount with
    | inl _ => {| http_success := true; http_error := None |}
    | inr m =>
        if (retryCount =? 0)%Z then
          match httpPass url 1 with
          | inl _ => {| http_success := true; http_error := None |}
          | inr m' => {| http_success := false; http_error := Some m' |}
          end
        else {| http_success := false; http_error := Some m |}
    end.

Record MailtoData := {
  to : string;
  mail_subject : string;
  body : string
}.

Definition prepareMailtoUnsubscribe (mailtoAddress : string) : MailtoData :=
  match parseURL ("mailto:" +:+ mailtoAddress) with
  | Some (pathname, search) =>
      {| to := pathname;
         mail_subject :=
           (if truthy (searchParam search "subject")
            then default "unsubscribe" (searchParam search "subject")
            else "unsubscribe");
         body :=
           (if truthy (searchParam search "body")
            then default "unsubscribe" (searchParam search "body")
            else "unsubscribe") |}
  | None =>
      {| to := mailtoAddress; mail_subject := "unsubscribe";
         body := "unsubscribe" |}
  end.

Inductive UnsubscribeMethod :=
  m_http | m_mailto | m_provider | m_block | m_spam.

Record UnsubscribeResult := {
  success : bool;
  method : UnsubscribeMethod;
  fallbackUsed : bool;
  undoToken : option string;
  metadata : MetaBag
}.

(** The [options] argument; an absent capability is [None], and a
    capability answers with a promise. *)
Record Options := {
  confirmUnsafe : option bool;
  sendMailto : option (string -> string -> string -> Settled bool);
  createBlockFilter : option (string -> Settled bool);
  markAsSpam : option (string -> Settled bool)
}.

Definition noOptions : Options :=
  {| confirmUnsafe := None; sendMailto := None; createBlockFilter := None;
     markAsSpam := None |}.

(** Steps 3 to the end of [executeUnsubscribe], after the HTTP step did not
    succeed.  A step that is not attempted counts as not successful. *)
Definition afterHttp (uuid : string) (email : NormalizedEmail)
    (options : Options) : Settled UnsubscribeResult :=
  mailtoSuccess ←
    match mailto (listUnsubscribe email), sendMailto options with
    | Some address, Some send =>
        if truthy (Some address) then
          let mailtoData := prepareMailtoUnsubscribe address in
          send (to mailtoData) (mail_subject mailtoData) (body mailtoData)
        else mret false
    | _, _ => mret false
    end;
  if mailtoSuccess : bool then
    mret {| success := true; method := m_mailto; fallbackUsed := false;
            undoToken := Some uuid;
            metadata :=
              [("mailto", MOptStr (mailto (listUnsubscribe email)))] |}
  else
    blockSuccess ←
      match createBlockFilter options with
      | Some create => create (sender email)
      | None => mret false
      end;
    if blockSuccess : bool then
      mret {| success := true; method := m_block; fallbackUsed := true;
              undoToken := Some uuid;
              metadata := [("sender", MStr (sender email))] |}
    else
      spamSuccess ←
        match markAsSpam options with
        | Some mark => mark (id email)
        | None => mret false
        end;
      if spamSuccess : bool then
        mret {| success := true; method := m_spam; fallbackUsed := true;
                undoToken := Some uuid;
                metadata := [("emailId", MStr (id email))] |}
      else
        mret {| success := false; method := m_http; fallbackUsed := true;
                undoToken := None;
                metadata :=
                  [("error", MStr "All unsubscribe methods failed")] |}.

(** [executeUnsubscribe(email, options)]; [uuid] is the value [uuidv4()]
    returns at the start of the call, and an absent [options] argument is
    [noOptions]. *)
Definition executeUnsubscribe (uuid : string) (email : NormalizedEmail)
    (options : Options) : Settled UnsubscribeResult :=
  let safetyCheck := checkUnsubscribeSafety email in
  if negb (safe safetyCheck) then
    mret {| success := false; method := m_http; fallbackUsed := false;
            undoToken := None;
            metadata := [("error", MOptStr (safety_reason safetyCheck))] |}
  else if safety_requiresConfirmation safetyCheck
          && negb (default false (confirmUnsafe options)) then
    mret {| success := false; method := m_http; fallbackUsed := false;
            undoToken := None;
            metadata := [("requiresConfirmation", MBool true);
                         ("reason", MOptStr (safety_reason safetyCheck))] |}
  else
    match http (listUnsubscribe email) with
    | Some url =>
        if truthy (Some url) && http_success (httpUnsubscribe url 0) then
          mret {| success := true; method := m_http; fallbackUsed := false;
                  undoToken := Some uuid;
                  metadata := [("url", MStr url)] |}
        else afterHttp uuid email options
    | None => afterHttp uuid email options
    end.

End WithPlatform.
End Unsubscribe.


(** ** Block and domain-nuke engine (lib/engines/block.ts) *)
Module Block.
Import JS Detection.

Inductive BlockAction := a_block | a_domain_nuke.

Record FilterResult := {
  filter_success : bool;
  filter_id : option string
}.

Record BlockMetadata := {
  bm_sender : string;
  bm_domain : string;
  bm_filterId : option string;
  bm_emailsDeleted : nat
}.

Record NukeMetadata := {
  nm_domain : string;
  sendersBlocked : nat;
  nm_emailsDeleted : nat;
  nm_filterId : option string
}.

Record BlockResult (M : Type) := {
  success : bool;
  action : BlockAction;
  undoToken : option string;
  metadata : M
}.
Arguments success {M}.
Arguments action {M}.
Arguments undoToken {M}.
Arguments metadata {M}.

(** The capabilities handed to [blockSender]; each is the provider call seen
    as a function from its argument to the way its promise settles. *)
Record BlockOptions := {
  createFilter : string -> Settled FilterResult;
  deleteEmails : list string -> Settled bool;
  getEmailsFromSender : string -> Settled (list string);
  confirmUnsafe : option bool
}.

Definition blockSender (uuid : string) (email : NormalizedEmail)
    (options : BlockOptions) : Settled (BlockResult BlockMetadata) :=
  let safetyCheck := canBlockSender email in
  let refused :=
    {| success := false; action := a_block; undoToken := None;
       metadata := {| bm_sender := sender email;
                      bm_domain := senderDomain email;
                      bm_filterId := None;
                      bm_emailsDeleted := 0 |} |} in
  if negb (allowed safetyCheck) then mret refused
  else
    filterResult ← createFilter options (sender email);
    if negb (filter_success filterResult) then mret refused
    else
      existingEmails ← getEmailsFromSender options (sender email);
      emailsDeleted ←
        (if (0 <? length existingEmails)%nat then
           deleteSuccess ← deleteEmails options existingEmails;
           mret (if deleteSuccess : bool then length existingEmails else 0%nat)
         else mret 0%nat);
      mret {| success := true; action := a_block; undoToken := Some uuid;
              metadata := {| bm_sender := sender email;
                             bm_domain := senderDomain email;
                             bm_filterId := filter_id filterResult;
                             bm_emailsDeleted := emailsDeleted |} |}.

Record NukeOptions := {
  createDomainFilter : string -> Settled FilterResult;
  nuke_deleteEmails : list string -> Settled bool;
  getEmailsFromDomain : string -> Settled (list string);
  getSendersFromDomain : string -> Settled (list string);
  confirmCaution : option bool
}.

Definition nukeDomain (uuid : string) (domain : string)
    (options : NukeOptions) : Settled (BlockResult NukeMetadata) :=
  let safetyCheck := canNukeDomain domain in
  let refused :=
    {| success := false; action := a_domain_nuke; undoToken := None;
       metadata := {| nm_domain := domain; sendersBlocked := 0;
                      nm_emailsDeleted := 0; nm_filterId := None |} |} in
  if negb (nuke_allowed safetyCheck) then mret refused
  else if requiresConfirmation safetyCheck
          && negb (default false (confirmCaution options)) then mret refused
  else
    senders ← getSendersFromDomain options domain;
    existingEmails ← getEmailsFromDomain options domain;
    emailsDeleted ←
      (if (0 <? length existingEmails)%nat then
         deleteSuccess ← nuke_deleteEmails options existingEmails;
         mret (if deleteSuccess : bool then length existingEmails else 0%nat)
       else mret 0%nat);
    filterResult ← createDomainFilter options domain;
    if negb (filter_success filterResult) then
      mret {| success := false; action := a_domain_nuke; undoToken := None;
              metadata := {| nm_domain := domain;
                             sendersBlocked := length senders;
                             nm_emailsDeleted := emailsDeleted;
                             nm_filterId := None |} |}
    else
      mret {| success := true; action := a_domain_nuke;
              undoToken := Some uuid;
              metadata := {| nm_domain := domain;
                             sendersBlocked := length senders;
                             nm_emailsDeleted := emailsDeleted;
                             nm_filterId := filter_id filterResult |} |}.

Record DomainSafetyInfo := {
  info_category : DomainSafety;
  canBlock : bool;
  info_requiresConfirmation : bool;
  message : option string
}.

Definition getDomainSafetyInfo (domain : string) : DomainSafetyInfo :=
  let category := getDomainSafetyCategory domain in
  let nukeCheck := canNukeDomain domain in
  {| info_category := category;
     canBlock := nuke_allowed nukeCheck;
     info_requiresConfirmation := requiresConfirmation nukeCheck;
     message := nuke_reason nukeCheck |}.

End Block.


(** ** Action engine (lib/engines/actions.ts) *)
Module Actions.
Import JS Detection.

Inductive SwipeAction := A_delete | A_unsubscribe | A_block | A_keep | A_nuke.

(** The [metadata] of an [ActionResult]: a literal bag, or the metadata of
    the block or nuke engine passed through. *)
Inductive Metadata :=
| M_bag (bag : MetaBag)
| M_block (m : Block.BlockMetadata)
| M_nuke (m : Block.NukeMetadata).

Record ActionResult := {
  success : bool;
  action : SwipeAction;
  undoToken : option string;
  undoExpiry : option Z;
  metadata : Metadata
}.

Record UndoData := {
  u_action : SwipeAction;
  u_emailId : string;
  u_providerId : string;
  u_sender : string;
  u_domain : string;
  u_filterId : option string;
  u_messageIds : option (list string);
  u_timestamp : Z
}.

Module PERFORMANCE.
Definition actionTimeout : Z := 200.
Definition undoTimeout : Z := 100.
Definition undoWindowMs : Z := 30000.
End PERFORMANCE.

(** The functions of lib/providers/gmail.ts the engine calls, each seen as a
    function of its arguments (the authenticated client is implicit).
    [trashEmail], [untrashEmail], [createBlockFilter], [deleteFilter],
    [batchModifyEmails] (message ids, labels added, labels removed) and
    [markAsSpam] catch every error of the mail API and always resolve; the
    two enumerations do not, and their promise may be rejected. *)
Record Gmail := {
  trashEmail : string -> bool;
  untrashEmail : string -> bool;
  createBlockFilter : option string -> option string -> Block.FilterResult;
  deleteFilter : string -> bool;
  getEmailsFromSender : string -> Settled (list string);
  getEmailsFromDomain : string -> Settled (list string);
  batchModifyEmails : list string -> list string -> list string -> bool;
  markAsSpam : string -> bool
}.

Record ExecOptions := {
  confirmDomainNuke : option bool;
  opt_domain : option string
}.

Record UndoResult := {
  undo_success : bool;
  undo_error : option string
}.

Section WithPlatform.

Variable fetch : Unsubscribe.Method -> string -> Z -> Unsubscribe.FetchOutcome.
Variable parseURL : string -> option (string * string).
Variable searchParam : string -> string -> option string.
Variable gmailApi : Gmail.

Definition failed (a : SwipeAction) (m : Metadata) : ActionResult :=
  {| success := false; action := a; undoToken := None; undoExpiry := None;
     metadata := m |}.

(** [executeAction(action, email, credentials, options)] on the undo store
    [undoStore].  [uuid] is the token [uuidv4()] mints at the start of the
    call and [engineUuid] the one minted inside the engine the call
    delegates to; [now] is the reading of the clock at the start of the call
    and [now'] the reading when the undo record is written.  The way the
    call settles is paired with the store it leaves behind. *)
Definition executeAction (undoStore : gmap string UndoData)
    (uuid engineUuid : string) (now now' : Z)
    (action : SwipeAction) (email : NormalizedEmail)
    (options : option ExecOptions)
    : Settled ActionResult * gmap string UndoData :=
  let undoToken := uuid in
  let undoExpiry := (now + PERFORMANCE.undoWindowMs)%Z in
  let record (a : SwipeAction) (domain : string) (filterId : option string) :=
    {| u_action := a; u_emailId := id email; u_providerId := providerId email;
       u_sender := sender email; u_domain := domain; u_filterId := filterId;
       u_messageIds := None; u_timestamp := now' |} in
  let succeeded (a : SwipeAction) (m : Metadata) :=
    {| success := true; action := a; undoToken := Some undoToken;
       undoExpiry := Some undoExpiry; metadata := m |} in
  match action with
  | A_delete =>
      if trashEmail gmailApi (providerId email) then
        (Resolved (succeeded A_delete (M_bag [("emailId", MStr (id email))])),
         <[undoToken := record A_delete (senderDomain email) None]> undoStore)
      else
        (Resolved
           (failed A_delete (M_bag [("error", MStr "Failed to delete email")])),
         undoStore)
  | A_unsubscribe =>
      match
        Unsubscribe.executeUnsubscribe fetch parseURL searchParam
          engineUuid email
          {| Unsubscribe.confirmUnsafe := None;
             Unsubscribe.sendMailto := None;
             Unsubscribe.createBlockFilter :=
               Some (fun sender =>
                 Resolved
                   (Block.filter_success
                      (createBlockFilter gmailApi (Some sender) None)));
             Unsubscribe.markAsSpam :=
               Some (fun emailId => Resolved (markAsSpam gmailApi emailId)) |}
      with
      | Rejected reason => (Rejected reason, undoStore)
      | Resolved result =>
          if Unsubscribe.success result
             && truthy (Unsubscribe.undoToken result)
          then
            (Resolved
               (succeeded A_unsubscribe (M_bag (Unsubscribe.metadata result))),
             <[undoToken := record A_unsubscribe (senderDomain email) None]>
               undoStore)
          else
            (Resolved
               (failed A_unsubscribe (M_bag (Unsubscribe.metadata result))),
             undoStore)
      end
  | A_block =>
      match
        Block.blockSender engineUuid email
          {| Block.createFilter :=
               (fun senderEmail =>
                  Resolved (createBlockFilter gmailApi (Some senderEmail) None));
             Block.deleteEmails :=
               (fun messageIds =>
                  Resolved
                    (batchModifyEmails gmailApi messageIds ["TRASH"] ["INBOX"]));
             Block.getEmailsFromSender :=
               (fun senderEmail => getEmailsFromSender gmailApi senderEmail);
             Block.confirmUnsafe := None |}
      with
      | Rejected reason => (Rejected reason, undoStore)
      | Resolved result =>
          if Block.success result then
            (Resolved (succeeded A_block (M_block (Block.metadata result))),
             <[undoToken :=
                 record A_block (senderDomain email)
                   (Block.bm_filterId (Block.metadata result))]> undoStore)
          else
            (Resolved (failed A_block (M_block (Block.metadata result))),
             undoStore)
      end
  | A_keep =>
      (Resolved
         (succeeded A_keep
            (M_bag [("emailId", MStr (id email));
                    ("sender", MStr (sender email));
                    ("domain", MStr (senderDomain email))])),
       undoStore)
  | A_nuke =>
      let domain :=
        match options with
        | Some o =>
            if truthy (opt_domain o)
            then default (senderDomain email) (opt_domain o)
            else senderDomain email
        | None => senderDomain email
        end in
      match
        Block.nukeDomain engineUuid domain
          {| Block.createDomainFilter :=
               (fun d => Resolved (createBlockFilter gmailApi None (Some d)));
             Block.nuke_deleteEmails :=
               (fun messageIds =>
                  Resolved
                    (batchModifyEmails gmailApi messageIds ["TRASH"] ["INBOX"]));
             Block.getEmailsFromDomain :=
               (fun d => getEmailsFromDomain gmailApi d);
             Block.getSendersFromDomain := (fun _ => Resolved []);
             Block.confirmCaution :=
               match options with
               | Some o => confirmDomainNuke o
               | None => None
               end |}
      with
      | Rejected reason => (Rejected reason, undoStore)
      | Resolved result =>
          if Block.success result then
            (Resolved (succeeded A_nuke (M_nuke (Block.metadata result))),
             <[undoToken :=
                 record A_nuke domain
                   (Block.nm_filterId (Block.metadata result))]> undoStore)
          else
            (Resolved (failed A_nuke (M_nuke (Block.metadata result))),
             undoStore)
      end
  end.

Definition undone : UndoResult :=
  {| undo_success := true; undo_error := None |}.

Definition refused (message : string) : UndoResult :=
  {| undo_success := false; undo_error := Some message |}.

(** [undoAction(undoToken, credentials)] on the undo store, with [now] the
    reading of the clock; the result is paired with the store left behind.
    The provider calls made inside the [try] block always resolve, so its
    [catch] clause is never entered. *)
Definition undoAction (undoStore : gmap string UndoData)
    (undoToken : string) (now : Z) : UndoResult * gmap string UndoData :=
  match undoStore !! undoToken with
  | None => (refused "Undo token not found or expired", undoStore)
  | Some undoData =>
      if (now - u_timestamp undoData >? PERFORMANCE.undoWindowMs)%Z then
        (refused "Undo window has expired", delete undoToken undoStore)
      else
        match u_action undoData with
        | A_delete =>
            if untrashEmail gmailApi (u_providerId undoData) then
              (undone, delete undoToken undoStore)
            else (refused "Failed to untrash email", undoStore)
        | A_block | A_nuke =>
            match u_filterId undoData with
            | Some filterId =>
                if truthy (Some filterId)
                   && negb (deleteFilter gmailApi filterId) then
                  (refused "Failed to delete filter", undoStore)
                else (undone, delete undoToken undoStore)
            | None => (undone, delete undoToken undoStore)
            end
        | A_unsubscribe | A_keep => (undone, delete undoToken undoStore)
        end
  end.

(** [getRemainingUndoTime(undoToken)] *)
Definition getRemainingUndoTime (undoStore : gmap string UndoData)
    (undoToken : string) (now : Z) : option Z :=
  match undoStore !! undoToken with
  | None => None
  | Some undoData =>
      let elapsed := (now - u_timestamp undoData)%Z in
      let remaining := (PERFORMANCE.undoWindowMs - elapsed)%Z in
      if (remaining >? 0)%Z then Some remaining else None
  end.

End WithPlatform.

(** [cleanupExpiredUndoTokens()]: the loop over the entries of the store,
    with [now] read once before it; the number of records removed comes
    with the store left behind. *)
Definition cleanupExpiredUndoTokens (undoStore : gmap string UndoData)
    (now : Z) : nat * gmap string UndoData :=
  map_fold
    (λ token data '(cleaned, store),
       if (now - u_timestamp data >? PERFORMANCE.undoWindowMs)%Z
       then (S cleaned, delete token store)
       else (cleaned, store))
    (0, undoStore) undoStore.

End Actions.


(** ** Adaptive buffer (lib/engines/buffer.ts) *)
Module Buffer.

Record BufferItem := {
  email : NormalizedEmail;
  isBossField : option bool;
  groupCount : option nat
}.

Record BufferConfig := {
  windowSize : nat;
  triggerThreshold : nat;
  batchSize : nat
}.

Definition DEFAULT_CONFIG : BufferConfig :=
  {| windowSize := 30; triggerThreshold := 10; batchSize := 50 |}.

Record PartialConfig := {
  p_windowSize : option nat;
  p_triggerThreshold : option nat;
  p_batchSize : option nat
}.

Definition noConfig : PartialConfig :=
  {| p_windowSize := None; p_triggerThreshold := None; p_batchSize := None |}.

(** [{ ...DEFAULT_CONFIG, ...config }] *)
Definition mergeConfig (c : PartialConfig) : BufferConfig :=
  {| windowSize := default (windowSize DEFAULT_CONFIG) (p_windowSize c);
     triggerThreshold :=
       default (triggerThreshold DEFAULT_CONFIG) (p_triggerThreshold c);
     batchSize := default (batchSize DEFAULT_CONFIG) (p_batchSize c) |}.

(** The state of a [SwipeBuffer].  The refill callback is modelled by the way
    each of its successive invocations settles; [refillCalls] is not a field
    of the class: it counts the invocations of the callback made so far, the
    only effect the buffer has on the outside. *)
Record SwipeBuffer := {
  fullQueue : list NormalizedEmail;
  activeWindow : list BufferItem;
  onRefillRequired : nat -> Settled (list NormalizedEmail);
  config : BufferConfig;
  isFetching : bool;
  refillCalls : nat
}.

Definition set_fullQueue (q : list NormalizedEmail) (b : SwipeBuffer) :=
  {| fullQueue := q; activeWindow := activeWindow b;
     onRefillRequired := onRefillRequired b; config := config b;
     isFetching := isFetching b; refillCalls := refillCalls b |}.

Definition set_activeWindow (w : list BufferItem) (b : SwipeBuffer) :=
  {| fullQueue := fullQueue b; activeWindow := w;
     onRefillRequired := onRefillRequired b; config := config b;
     isFetching := isFetching b; refillCalls := refillCalls b |}.

Definition set_isFetching (f : bool) (b : SwipeBuffer) :=
  {| fullQueue := fullQueue b; activeWindow := activeWindow b;
     onRefillRequired := onRefillRequired b; config := config b;
     isFetching := f; refillCalls := refillCalls b |}.

Definition count_call (b : SwipeBuffer) :=
  {| fullQueue := fullQueue b; activeWindow := activeWindow b;
     onRefillRequired := onRefillRequired b; config := config b;
     isFetching := isFetching b; refillCalls := S (refillCalls b) |}.

Definition ids (l : list NormalizedEmail) : list string := id <$> l.

(** The set [sameDomain] the loop of [groupIntoBosses] computes for [email]. *)
Definition sameDomainOf (emails : list NormalizedEmail) (processed : gset string)
    (email : NormalizedEmail) : list NormalizedEmail :=
  filter (λ e, senderDomain e = senderDomain email ∧ id e ∉ processed) emails.

Definition single (email : NormalizedEmail) : BufferItem :=
  {| email := email; isBossField := None; groupCount := None |}.

Definition boss (email : NormalizedEmail) (n : nat) : BufferItem :=
  {| email := email; isBossField := Some true; groupCount := Some n |}.

(** The loop of [groupIntoBosses] over the remaining [todo] entries of
    [emails], with the current [processed] set; the items are listed in the
    order the loop pushes them.  [sameDomain[0]] exists whenever the set has
    five members or more. *)
Fixpoint groupLoop (emails : list NormalizedEmail) (processed : gset string)
    (todo : list NormalizedEmail) : list BufferItem :=
  match todo with
  | [] => []
  | email :: rest =>
      if decide (id email ∈ processed) then groupLoop emails processed rest
      else
        let sameDomain := sameDomainOf emails processed email in
        if (5 <=? length sameDomain)%nat then
          boss (hd email sameDomain) (length sameDomain)
            :: groupLoop emails (processed ∪ list_to_set (ids sameDomain)) rest
        else
          single email :: groupLoop emails (processed ∪ {[id email]}) rest
  end.

Definition groupIntoBosses (emails : list NormalizedEmail) : list BufferItem :=
  groupLoop emails ∅ emails.

Definition syncWindow (b : SwipeBuffer) : SwipeBuffer :=
  let rawItems := take (windowSize (config b)) (fullQueue b) in
  set_activeWindow (groupIntoBosses rawItems) b.

(** [new SwipeBuffer(initialEmails, onRefill, config)] *)
Definition construct (initialEmails : list NormalizedEmail)
    (onRefill : nat -> Settled (list NormalizedEmail))
    (config : PartialConfig) : SwipeBuffer :=
  syncWindow
    {| fullQueue := initialEmails; activeWindow := [];
       onRefillRequired := onRefill; config := mergeConfig config;
       isFetching := false; refillCalls := 0 |}.

Definition getWindow (b : SwipeBuffer) := activeWindow b.
Definition getFullQueue (b : SwipeBuffer) := fullQueue b.
Definition getIsFetching (b : SwipeBuffer) := isFetching b.
Definition getRemainingCount (b : SwipeBuffer) := length (fullQueue b).

(** [arr.splice(index, 0, x)] *)
Definition splice_in {A} (index : Z) (x : A) (arr : list A) : list A :=
  let len := Z.of_nat (length arr) in
  let start :=
    Z.to_nat (if (index <? 0)%Z then Z.max (len + index) 0
              else Z.min index len) in
  take start arr ++ x :: drop start arr.

Definition addItem (email : NormalizedEmail) (index : Z) (b : SwipeBuffer)
    : SwipeBuffer :=
  syncWindow (set_fullQueue (splice_in index email (fullQueue b)) b).

(** [refill()]: the buffer it leaves, and how its promise settles.  The
    [finally] block runs on both paths; a rejection of the callback is not
    caught and settles the promise of [refill]. *)
Definition refill (b : SwipeBuffer) : SwipeBuffer * Settled unit :=
  let b := set_isFetching true b in
  let outcome := onRefillRequired b (refillCalls b) in
  let b := count_call b in
  match outcome with
  | Resolved newItems =>
      let uniqueNewItems :=
        filter (λ newItem, ¬ Exists (λ existing, id existing = id newItem)
                                    (fullQueue b)) newItems in
      let b := set_fullQueue (fullQueue b ++ uniqueNewItems) b in
      (syncWindow (set_isFetching false b), Resolved tt)
  | Rejected reason =>
      (syncWindow (set_isFetching false b), Rejected reason)
  end.

(** The part [consumeItem] and [consumeBatch] share, once both filters have
    been applied. *)
Definition afterRemoval (b : SwipeBuffer) : SwipeBuffer * Settled unit :=
  if (length (activeWindow b) <=? triggerThreshold (config b))%nat
     && negb (isFetching b)
  then
    match refill b with
    | (b, Resolved _) => (syncWindow b, Resolved tt)
    | (b, Rejected reason) => (b, Rejected reason)
    end
  else (syncWindow b, Resolved tt).

Definition consumeItem (i : string) (b : SwipeBuffer)
    : SwipeBuffer * Settled unit :=
  let b :=
    set_activeWindow (filter (λ item, id (email item) ≠ i) (activeWindow b)) b in
  let b := set_fullQueue (filter (λ email, id email ≠ i) (fullQueue b)) b in
  afterRemoval b.

Definition consumeBatch (idList : list string) (b : SwipeBuffer)
    : SwipeBuffer * Settled unit :=
  let idSet : gset string := list_to_set idList in
  let b :=
    set_activeWindow
      (filter (λ item, id (email item) ∉ idSet) (activeWindow b)) b in
  let b := set_fullQueue (filter (λ email, id email ∉ idSet) (fullQueue b)) b in
  afterRemoval b.

Definition nukeDomain (domain : string) (b : SwipeBuffer) : SwipeBuffer :=
  syncWindow
    (set_fullQueue (filter (λ email, senderDomain email ≠ domain) (fullQueue b))
       b).

(** The operations a caller issues, run one after the other, each to
    completion. *)
Inductive Op :=
| ConsumeOne (i : string)
| ConsumeMany (idList : list string)
| AddItem (email : NormalizedEmail) (index : Z)
| NukeDomain (domain : string).

Definition runOp (o : Op) (b : SwipeBuffer) : SwipeBuffer * Settled unit :=
  match o with
  | ConsumeOne i => consumeItem i b
  | ConsumeMany idList => consumeBatch idList b
  | AddItem email index => (addItem email index b, Resolved tt)
  | NukeDomain domain => (nukeDomain domain b, Resolved tt)
  end.

Fixpoint runOps (os : list Op) (b : SwipeBuffer) : SwipeBuffer :=
  match os with
  | [] => b
  | o :: os' => runOps os' (fst (runOp o b))
  end.

End Buffer.

(** ** Sample data *)
Module Sample.

Definition noHeaders : Headers :=
  {| precedence := None; returnPath := None; xMailer := None;
     xCampaign := None; xNewsletter := None; xList := None; xSgEid := None;
     xMailgunSid := None; xMailchimp := None |}.

Definition mail (i sender domain subject : string) (unsub : option string)
    : NormalizedEmail :=
  {| id := i; provider := gmail; providerId := "g-" +:+ i; sender := sender;
     senderName := None; senderDomain := domain; subject := subject;
     preview := ""; receivedAt := "2024-01-01T00:00:00Z"; timestamp := 0;
     listUnsubscribe := {| http := unsub; mailto := None |};
     category := unknown; labels := []; isRead := false; msgSize := 0;
     headers := noHeaders |}.

Definition from (domain i : string) : NormalizedEmail :=
  mail i ("news@" +:+ domain) domain "Weekly digest" None.

Definition quietGmail : Actions.Gmail :=
  {| Actions.trashEmail := fun _ => true;
     Actions.untrashEmail := fun _ => true;
     Actions.createBlockFilter := fun _ _ =>
       {| Block.filter_success := true; Block.filter_id := Some "f1" |};
     Actions.deleteFilter := fun _ => true;
     Actions.getEmailsFromSender := fun _ => Resolved [];
     Actions.getEmailsFromDomain := fun _ => Resolved [];
     Actions.batchModifyEmails := fun _ _ _ => true;
     Actions.markAsSpam := fun _ => true |}.

(** A receipt that also carries every newsletter signal. *)
Definition receipt : NormalizedEmail :=
  {| id := "r1"; provider := gmail; providerId := "g-r1";
     sender := "Receipts@mailchimp.com"; senderName := None;
     senderDomain := "mailchimp.com"; subject := "Big sale this week";
     preview := ""; receivedAt := "2024-01-01T00:00:00Z"; timestamp := 0;
     listUnsubscribe :=
       {| http := Some "https://mailchimp.com/unsub";
          mailto := Some "unsub@mailchimp.com" |};
     category := promo; labels := ["CATEGORY_PROMOTIONS"]; isRead := false;
     msgSize := 0;
     headers :=
       {| precedence := Some "bulk"; returnPath := None; xMailer := None;
          xCampaign := Some "c1"; xNewsletter := Some "n1"; xList := None;
          xSgEid := None; xMailgunSid := None; xMailchimp := Some "m1" |} |}.

Definition keenStats : SenderStats :=
  {| frequencyScore := 0.4; reputationScore := 0.7 |}.

(** Block capabilities whose filter creation succeeds and whose bulk
    move-to-trash fails. *)
Definition filterOnly : Block.BlockOptions :=
  {| Block.createFilter := fun _ =>
       Resolved {| Block.filter_success := true; Block.filter_id := Some "f7" |};
     Block.deleteEmails := fun _ => Resolved false;
     Block.getEmailsFromSender := fun _ => Resolved ["g-1"; "g-2"];
     Block.confirmUnsafe := None |}.

(** Block capabilities whose filter creation fails. *)
Definition noFilter : Block.BlockOptions :=
  {| Block.createFilter := fun _ =>
       Resolved {| Block.filter_success := false; Block.filter_id := None |};
     Block.deleteEmails := fun _ => Resolved true;
     Block.getEmailsFromSender := fun _ => Resolved ["g-1"; "g-2"];
     Block.confirmUnsafe := None |}.

(** An item whose only unsubscribe channel is a shortened HTTPS link. *)
Definition shortLink : NormalizedEmail :=
  mail "m9" "news@shop.example" "shop.example" "Weekly digest"
    (Some "https://bit.ly/3xYz").

(** Only the spam-mark capability, which works; no confirmation given. *)
Definition spamOnly : Unsubscribe.Options :=
  {| Unsubscribe.confirmUnsafe := None; Unsubscribe.sendMailto := None;
     Unsubscribe.createBlockFilter := None;
     Unsubscribe.markAsSpam := Some (fun _ => Resolved true) |}.

(** The same, with the caller's confirmation. *)
Definition spamOnlyConfirmed : Unsubscribe.Options :=
  {| Unsubscribe.confirmUnsafe := Some true; Unsubscribe.sendMailto := None;
     Unsubscribe.createBlockFilter := None;
     Unsubscribe.markAsSpam := Some (fun _ => Resolved true) |}.

(** A network on which every request is answered with 200. *)
Definition kindNetwork (m : Unsubscribe.Method) (url : string) (n : Z)
    : Unsubscribe.FetchOutcome :=
  Unsubscribe.Response 200.

(** Five entries from a.example interleaved with four from b.example. *)
Definition mixedQueue : list NormalizedEmail :=
  [ from "a.example" "1"; from "b.example" "2"; from "a.example" "3";
    from "a.example" "4"; from "b.example" "5"; from "a.example" "6";
    from "b.example" "7"; from "a.example" "8"; from "b.example" "9" ].

(** A refill source that always rejects. *)
Definition brokenSource (n : nat) : Settled (list NormalizedEmail) :=
  Rejected "refill failed".

Definition starvedBuffer : Buffer.SwipeBuffer :=
  Buffer.construct mixedQueue brokenSource Buffer.noConfig.

(** Two entries whose domains differ in letter case only. *)
Definition caseQueue : list NormalizedEmail :=
  [ from "shop.example" "1"; from "Shop.example" "2";
    from "other.example" "3"; from "shop.example" "4" ].

Definition caseBuffer : Buffer.SwipeBuffer :=
  Buffer.construct caseQueue brokenSource Buffer.noConfig.

Definition deadNetwork (m : Unsubscribe.Method) (url : string) (n : Z)
    : Unsubscribe.FetchOutcome :=
  Unsubscribe.NetworkError "offline".

Definition oldRecord : Actions.UndoData :=
  {| Actions.u_action := Actions.A_delete; Actions.u_emailId := "m1";
     Actions.u_providerId := "g-m1"; Actions.u_sender := "news@shop.example";
     Actions.u_domain := "shop.example"; Actions.u_filterId := None;
     Actions.u_messageIds := None; Actions.u_timestamp := 1000 |}.

(** A store holding one record past its window at time 40000 and one still
    within it. *)
Definition freshRecord : Actions.UndoData :=
  {| Actions.u_action := Actions.A_block; Actions.u_emailId := "m2";
     Actions.u_providerId := "g-m2"; Actions.u_sender := "news@shop.example";
     Actions.u_domain := "shop.example"; Actions.u_filterId := Some "f1";
     Actions.u_messageIds := None; Actions.u_timestamp := 20000 |}.

Definition mixedStore : gmap string Actions.UndoData :=
  <["old" := oldRecord]> (<["new" := freshRecord]> ∅).

(** A provider on which no filter can be deleted. *)
Definition stickyGmail : Actions.Gmail :=
  {| Actions.trashEmail := fun _ => true;
     Actions.untrashEmail := fun _ => true;
     Actions.createBlockFilter := fun _ _ =>
       {| Block.filter_success := true; Block.filter_id := Some "f1" |};
     Actions.deleteFilter := fun _ => false;
     Actions.getEmailsFromSender := fun _ => Resolved [];
     Actions.getEmailsFromDomain := fun _ => Resolved [];
     Actions.batchModifyEmails := fun _ _ _ => true;
     Actions.markAsSpam := fun _ => true |}.

(** Nuke capabilities whose bulk move-to-trash works and whose filter
    creation fails. *)
Definition deleteOnly : Block.NukeOptions :=
  {| Block.createDomainFilter := fun _ =>
       Resolved {| Block.filter_success := false; Block.filter_id := None |};
     Block.nuke_deleteEmails := fun _ => Resolved true;
     Block.getEmailsFromDomain := fun _ => Resolved ["g-1"; "g-2"; "g-3"];
     Block.getSendersFromDomain := fun _ => Resolved ["a@spam.example"];
     Block.confirmCaution := None |}.

(** Nuke capabilities whose bulk move-to-trash fails and whose filter
    creation works. *)
Definition filterOnlyNuke : Block.NukeOptions :=
  {| Block.createDomainFilter := fun _ =>
       Resolved {| Block.filter_success := true; Block.filter_id := Some "f9" |};
     Block.nuke_deleteEmails := fun _ => Resolved false;
     Block.getEmailsFromDomain := fun _ => Resolved ["g-1"; "g-2"; "g-3"];
     Block.getSendersFromDomain := fun _ => Resolved ["a@spam.example"];
     Block.confirmCaution := None |}.

(** Unsubscribe capabilities: a block filter that rejects, a spam mark that
    works; the caller has confirmed. *)
Definition rejectingBlock : Unsubscribe.Options :=
  {| Unsubscribe.confirmUnsafe := Some true; Unsubscribe.sendMailto := None;
     Unsubscribe.createBlockFilter := Some (fun _ => Rejected "quota");
     Unsubscribe.markAsSpam := Some (fun _ => Resolved true) |}.

(** An item with a mailto address only, and capabilities where sending the
    mail works and the block filter would reject. *)
Definition mailtoOnly : NormalizedEmail :=
  {| id := "m5"; provider := gmail; providerId := "g-m5";
     sender := "news@shop.example"; senderName := None;
     senderDomain := "shop.example"; subject := "Weekly digest";
     preview := ""; receivedAt := "2024-01-01T00:00:00Z"; timestamp := 0;
     listUnsubscribe := {| http := None; mailto := Some "leave@shop.example" |};
     category := unknown; labels := []; isRead := false; msgSize := 0;
     headers := noHeaders |}.

Definition mailWorks : Unsubscribe.Options :=
  {| Unsubscribe.confirmUnsafe := None;
     Unsubscribe.sendMailto := Some (fun _ _ _ => Resolved true);
     Unsubscribe.createBlockFilter := Some (fun _ => Rejected "quota");
     Unsubscribe.markAsSpam := Some (fun _ => Rejected "quota") |}.

(** An item whose unsubscribe link is plain HTTP. *)
Definition plainLink : NormalizedEmail :=
  mail "m7" "news@shop.example" "shop.example" "Weekly digest"
    (Some "http://unsub.example/u").

(** A network that fails the first attempt and answers the retry. *)
Definition flakyNetwork (m : Unsubscribe.Method) (url : string) (n : Z)
    : Unsubscribe.FetchOutcome :=
  if (n =? 0)%Z then Unsubscribe.NetworkError "timeout"
  else Unsubscribe.Response 200.

(** A network that answers every GET with 503 and would accept any POST. *)
Definition busyNetwork (m : Unsubscribe.Method) (url : string) (n : Z)
    : Unsubscribe.FetchOutcome :=
  match m with
  | Unsubscribe.GET => Unsubscribe.Response 503
  | Unsubscribe.POST => Unsubscribe.Response 200
  end.

(** A newsletter with every signal, and a plain item. *)
Definition digest : NormalizedEmail :=
  {| id := "d1"; provider := gmail; providerId := "g-d1";
     sender := "hello@news.substack.com"; senderName := None;
     senderDomain := "news.substack.com"; subject := "This week";
     preview := ""; receivedAt := "2024-01-01T00:00:00Z"; timestamp := 0;
     listUnsubscribe :=
       {| http := Some "https://substack.com/unsub"; mailto := None |};
     category := newsletter; labels := ["CATEGORY_PROMOTIONS"];
     isRead := false; msgSize := 0;
     headers :=
       {| precedence := Some "bulk"; returnPath := None; xMailer := None;
          xCampaign := None; xNewsletter := Some "n1"; xList := None;
          xSgEid := None; xMailgunSid := None; xMailchimp := None |} |}.

Definition statsMap : gmap string SenderStats :=
  {[ "hello@news.substack.com" := keenStats ]}.

(** A refill source that always answers with the same two entries, one of
    which the sample queue already holds. *)
Definition steadySource (n : nat) : Settled (list NormalizedEmail) :=
  Resolved [from "b.example" "9"; from "c.example" "10"].

Definition fedBuffer : Buffer.SwipeBuffer :=
  Buffer.construct mixedQueue steadySource Buffer.noConfig.

(** A buffer with a refill in flight. *)
Definition busyBuffer : Buffer.SwipeBuffer :=
  Buffer.set_isFetching true fedBuffer.

(** Twelve entries from one domain. *)
Definition floodQueue : list NormalizedEmail :=
  from "spam.example" <$> ["1"; "2"; "3"; "4"; "5"; "6"; "7"; "8"; "9"; "10";
                           "11"; "12"].

Definition narrowConfig : Buffer.PartialConfig :=
  {| Buffer.p_windowSize := Some 10; Buffer.p_triggerThreshold := Some 3;
     Buffer.p_batchSize := None |}.

Definition floodBuffer : Buffer.SwipeBuffer :=
  Buffer.construct floodQueue brokenSource narrowConfig.

(** An item whose subject speaks of a shipment, a payment and a receipt, sent
    from an address that holds no transactional word. *)
Definition parcelNote : NormalizedEmail :=
  mail "p1" "hello@shop.example" "shop.example"
    "Shipping update: payment receipt enclosed" None.

(** An item whose local part is a word of the subject list. *)
Definition flightDeals : NormalizedEmail :=
  mail "p2" "flight@air.example" "air.example" "Weekly deals" None.

(** Block capabilities whose filter creation succeeds and whose enumeration
    of the sender's emails throws. *)
Definition brokenEnumeration : Block.BlockOptions :=
  {| Block.createFilter := fun _ =>
       Resolved {| Block.filter_success := true; Block.filter_id := Some "f7" |};
     Block.deleteEmails := fun _ => Resolved true;
     Block.getEmailsFromSender := fun _ => Rejected "quota exceeded";
     Block.confirmUnsafe := None |}.

(** Block capabilities whose filter creation succeeds and whose bulk
    move-to-trash throws. *)
Definition throwingDelete : Block.BlockOptions :=
  {| Block.createFilter := fun _ =>
       Resolved {| Block.filter_success := true; Block.filter_id := Some "f7" |};
     Block.deleteEmails := fun _ => Rejected "batch failed";
     Block.getEmailsFromSender := fun _ => Resolved ["g-1"; "g-2"];
     Block.confirmUnsafe := None |}.

(** Block capabilities that all work. *)
Definition blockWorks : Block.BlockOptions :=
  {| Block.createFilter := fun _ =>
       Resolved {| Block.filter_success := true; Block.filter_id := Some "f7" |};
     Block.deleteEmails := fun _ => Resolved true;
     Block.getEmailsFromSender := fun _ => Resolved ["g-1"; "g-2"];
     Block.confirmUnsafe := None |}.

(** Five entries from a.example, and an entry from another domain that
    carries the identifier of the third of them. *)
Definition fiveQueue : list NormalizedEmail :=
  from "a.example" <$> ["1"; "2"; "3"; "4"; "5"].

Definition clash : NormalizedEmail := from "b.example" "3".

Definition clashQueue : list NormalizedEmail := clash :: fiveQueue.

(** A sequence of operations with two refills. *)
Definition sampleOps : list Buffer.Op :=
  [ Buffer.ConsumeOne "2"; Buffer.AddItem (from "d.example" "11") 0;
    Buffer.NukeDomain "b.example"; Buffer.ConsumeMany ["4"; "6"] ].

End Sample.


(** ** Terms the properties are stated with *)

(** The item [email] with an HTTP unsubscribe URL put in its descriptor, and
    nothing else changed. *)
Definition addHttpUnsubscribe (url : string) (email : NormalizedEmail)
    : NormalizedEmail :=
  {| id := id email; provider := provider email;
     providerId := providerId email; sender := sender email;
     senderName := senderName email; senderDomain := senderDomain email;
     subject := subject email; preview := preview email;
     receivedAt := receivedAt email; timestamp := timestamp email;
     listUnsubscribe :=
       {| http := Some url; mailto := mailto (listUnsubscribe email) |};
     category := category email; labels := labels email;
     isRead := isRead email; msgSize := msgSize email;
     headers := headers email |}.

(** The item [email] with a mailto unsubscribe address put in its descriptor,
    and nothing else changed. *)
Definition addMailtoUnsubscribe (address : string) (email : NormalizedEmail)
    : NormalizedEmail :=
  {| id := id email; provider := provider email;
     providerId := providerId email; sender := sender email;
     senderName := senderName email; senderDomain := senderDomain email;
     subject := subject email; preview := preview email;
     receivedAt := receivedAt email; timestamp := timestamp email;
     listUnsubscribe :=
       {| http := http (listUnsubscribe email); mailto := Some address |};
     category := category email; labels := labels email;
     isRead := isRead email; msgSize := msgSize email;
     headers := headers email |}.

(** A text matches a vocabulary when, lower-cased, it contains one of its
    words. *)
Definition matchesVocabulary (vocabulary : list string) (text : string)
    : Prop :=
  exists word, word ∈ vocabulary
               /\ JS.includes (JS.toLowerCase text) word = true.


(** The specification speaks of one vocabulary of transactional markers,
    looked for in the origin's local part and in the subject alike.  The
    code keeps two lists; read as one vocabulary, they are this one. *)
Definition transactionalVocabulary : list string :=
  Detection.TRANSACTIONAL_PATTERNS ++ Detection.transactionalSubjectPatterns.


(** The result [blockSender] reports for [email]: its outcome, the token,
    and the filter identifier and the count of deleted emails of the
    metadata. *)
Definition blockReport (email : NormalizedEmail) (ok : bool)
    (token filterId : option string) (emailsDeleted : nat)
    : Block.BlockResult Block.BlockMetadata :=
  {| Block.success := ok; Block.action := Block.a_block;
     Block.undoToken := token;
     Block.metadata := {| Block.bm_sender := sender email;
                          Block.bm_domain := senderDomain email;
                          Block.bm_filterId := filterId;
                          Block.bm_emailsDeleted := emailsDeleted |} |}.

(** The number of queue entries a buffer item stands for. *)
Definition expanded (item : Buffer.BufferItem) : nat :=
  default 1 (Buffer.groupCount item).

(** The entries of [emails] sent from [domain], in their order, and their
    number. *)
Definition fromDomain (domain : string) (emails : list NormalizedEmail)
    : list NormalizedEmail :=
  filter (λ e, senderDomain e = domain) emails.

Definition domainCount (domain : string) (emails : list NormalizedEmail)
    : nat :=
  length (fromDomain domain emails).

(** The buffer items that stand for entries sent from [domain]. *)
Definition itemsOf (domain : string) (items : list Buffer.BufferItem)
    : list Buffer.BufferItem :=
  filter (λ item, senderDomain (Buffer.email item) = domain) items.


(** The window of [b] is the grouped projection of the first [windowSize]
    entries of its backing queue. *)
Definition synced (b : Buffer.SwipeBuffer) : Prop :=
  Buffer.activeWindow b
  = Buffer.groupIntoBosses
      (take (Buffer.windowSize (Buffer.config b)) (Buffer.fullQueue b)).

(** The entries whose identifier is not yet in the processed set. *)
Definition pending (processed : gset string) (w : list NormalizedEmail)
    : list NormalizedEmail :=
  filter (λ e, id e ∉ processed) w.


(** *** The grouping, as the specification words it

    What the entry [e] of the window [w] gives rise to, [seen] being the
    entries that come before it: when the entries of its domain are five or
    more, one collapsed item carrying [e] and their number if [e] is the
    first of them, and nothing otherwise; when they are fewer, [e] alone. *)
Definition emittedAt (w seen : list NormalizedEmail) (e : NormalizedEmail)
    : list Buffer.BufferItem :=
  if decide (5 <= domainCount (senderDomain e) w) then
    if decide (Exists (λ x, senderDomain x = senderDomain e) seen) then []
    else [Buffer.boss e (domainCount (senderDomain e) w)]
  else [Buffer.single e].

Fixpoint groupedFrom (w seen todo : list NormalizedEmail)
    : list Buffer.BufferItem :=
  match todo with
  | [] => []
  | e :: rest => emittedAt w seen e ++ groupedFrom w (seen ++ [e]) rest
  end.

Definition grouped (w : list NormalizedEmail) : list Buffer.BufferItem :=
  groupedFrom w [] w.

(** The processed set of the loop of [groupIntoBosses] when the entries
    [done] of the window [w] have been visited: it holds the identifiers of
    the visited entries of the small domains, and of every entry of a large
    domain met so far. *)
Definition processedAfter (w done : list NormalizedEmail)
    (processed : gset string) : Prop :=
  forall x, x ∈ w ->
    id x ∈ processed
    <-> (x ∈ done /\ domainCount (senderDomain x) w < 5)
        \/ (5 <= domainCount (senderDomain x) w
            /\ Exists (λ y, senderDomain y = senderDomain x) done).


(** A record is past its undo window at [now]. *)
Definition expiredAt (now : Z) (data : Actions.UndoData) : Prop :=
  (now - Actions.u_timestamp data > Actions.PERFORMANCE.undoWindowMs)%Z.

#[export] Instance expiredAt_dec (now : Z) (data : Actions.UndoData)
    : Decision (expiredAt now data) :=
  Z_gt_dec _ _.

(** The safety gate of [executeUnsubscribe] lets the item through: the item
    is safe, and the caller has confirmed where a confirmation is asked. *)
Definition gateOpen (email : NormalizedEmail) (options : Unsubscribe.Options)
    : Prop :=
  Unsubscribe.safe (Unsubscribe.checkUnsubscribeSafety email) = true
  /\ (Unsubscribe.safety_requiresConfirmation
        (Unsubscribe.checkUnsubscribeSafety email) = true ->
      Unsubscribe.confirmUnsafe options = Some true).

(** The HTTP step of [executeUnsubscribe] is skipped or does not succeed. *)
Definition httpStepFails
    (fetch : Unsubscribe.Method -> string -> Z -> Unsubscribe.FetchOutcome)
    (email : NormalizedEmail) : Prop :=
  match http (listUnsubscribe email) with
  | Some url =>
      JS.truthy (Some url)
      && Unsubscribe.http_success (Unsubscribe.httpUnsubscribe fetch url 0)
      = false
  | None => True
  end.

(** A status that is neither a success nor one the POST retry is for. *)
Definition plainFailure (status : Z) : Prop :=
  Unsubscribe.ok_status status = false /\ status <> 400%Z /\ status <> 405%Z.

(** Sender statistics within the unit interval. *)
Definition unitStats (senderStats : option SenderStats) : Prop :=
  match senderStats with
  | Some st =>
      (0 <= frequencyScore st <= 1)%Q /\ (0 <= reputationScore st <= 1)%Q
  | None => True
  end.

(** The number of consuming operations in a sequence. *)
Fixpoint consumptions (os : list Buffer.Op) : nat :=
  match os with
  | [] => 0
  | Buffer.ConsumeOne _ :: os' | Buffer.ConsumeMany _ :: os' =>
      S (consumptions os')
  | _ :: os' => consumptions os'
  end.

(** Inequalities between rational constants. *)
Ltac q_const := unfold Qle; simpl; lia.

(** * Properties *)

(** ** The undo store *)
Section UndoFacts.
Import Actions.

Variable fetch : Unsubscribe.Method -> string -> Z -> Unsubscribe.FetchOutcome.
Variable parseURL : string -> option (string * string).
Variable searchParam : string -> string -> option string.
Variable gmailApi : Gmail.

(** C4.  A token whose record is still in the undo store, used strictly
    after the undo window has elapsed ([now - created > undoWindowMs]), is
    refused with the "window expired" error, and the record is evicted: the
    store left behind no longer holds the token, and holds every other
    record unchanged. *)
Theorem undo_after_window_is_refused_and_evicts
    (undoStore : gmap string UndoData) (undoToken : string)
    (undoData : UndoData) (now : Z) :
  undoStore !! undoToken = Some undoData ->
  (now - u_timestamp undoData > PERFORMANCE.undoWindowMs)%Z ->
  let '(result, undoStore') := undoAction gmailApi undoStore undoToken now in
  result = {| undo_success := false;
              undo_error := Some "Undo window has expired" |}
  /\ undoStore' !! undoToken = None
  /\ (forall other, other <> undoToken ->
        undoStore' !! other = undoStore !! other).
Proof.
  intros Hpresent Hlate. unfold undoAction. rewrite Hpresent.
  destruct (Z.gtb_spec (now - u_timestamp undoData) PERFORMANCE.undoWindowMs)
    as [_ | Hnot]; [| lia].
  split; [reflexivity |]. split.
  - apply lookup_delete_eq.
  - intros other Hne. by apply lookup_delete_ne.
Qed.

(** C2.  [keep] answers with success, a token and an expiry, but leaves the
    undo store as it was: with a fresh token, [undoAction] on that token does
    not find a record, whatever the time it is called at. *)
Theorem keep_token_is_never_recorded
    (undoStore : gmap string UndoData) (uuid engineUuid : string)
    (now now' : Z) (email : NormalizedEmail) (options : option ExecOptions) :
  undoStore !! uuid = None ->
  exists result,
    executeAction fetch parseURL searchParam gmailApi undoStore
      uuid engineUuid now now' A_keep email options
    = (Resolved result, undoStore)
    /\ success result = true
    /\ undoToken result = Some uuid
    /\ undoExpiry result = Some (now + PERFORMANCE.undoWindowMs)%Z
    /\ forall later,
         undoAction gmailApi undoStore uuid later
         = ({| undo_success := false;
               undo_error := Some "Undo token not found or expired" |},
            undoStore).
Proof.
  intros Hfresh. eexists. split; [reflexivity |]. repeat split.
  intros later. unfold undoAction. by rewrite Hfresh.
Qed.

End UndoFacts.

Section UndoWitnesses.
Import Actions Sample.

Lemma undo_after_window_witness :
  let '(result, undoStore') :=
    undoAction quietGmail {[ "tok" := oldRecord ]} "tok" 31001 in
  result = {| undo_success := false;
              undo_error := Some "Undo window has expired" |}
  /\ undoStore' !! "tok" = None
  /\ (forall other, other <> "tok" ->
        undoStore' !! other = ({[ "tok" := oldRecord ]} : gmap string UndoData) !! other).
Proof.
  apply (undo_after_window_is_refused_and_evicts quietGmail
           {[ "tok" := oldRecord ]} "tok" oldRecord 31001).
  - apply lookup_singleton_eq.
  - reflexivity.
Defined.

Lemma keep_token_witness :
  exists result,
    executeAction deadNetwork (fun _ => None) (fun _ _ => None) quietGmail
      ∅ "tok" "tok2" 1000 1000 A_keep (from "shop.example" "m1") None
    = (Resolved result, ∅)
    /\ success result = true
    /\ undoToken result = Some "tok"
    /\ undoExpiry result = Some (1000 + PERFORMANCE.undoWindowMs)%Z
    /\ forall later,
         undoAction quietGmail ∅ "tok" later
         = ({| undo_success := false;
               undo_error := Some "Undo token not found or expired" |},
            ∅).
Proof.
  apply (keep_token_is_never_recorded deadNetwork (fun _ => None)
           (fun _ _ => None) quietGmail ∅ "tok" "tok2" 1000 1000
           (from "shop.example" "m1") None).
  apply lookup_empty.
Defined.

End UndoWitnesses.

(** ** The classification scorer *)
Section DetectionFacts.
Import JS Detection.

Lemma startsWith_app (a b p : string) :
  startsWith a p = true -> startsWith (a +:+ b) p = true.
Proof.
  revert a. induction p as [| c p IH]; intros a.
  { intros _. by destruct (a +:+ b). }
  destruct a as [| c' a]; simpl; [discriminate |].
  intros [-> H]%andb_prop. rewrite (IH a H). reflexivity.
Qed.

Lemma includes_cons (c : ascii) (s p : string) :
  includes (String c s) p = startsWith (String c s) p || includes s p.
Proof. reflexivity. Qed.

Lemma includes_app (a b p : string) :
  includes a p = true -> includes (a +:+ b) p = true.
Proof.
  induction a as [| c a IH].
  - destruct p; [| discriminate]. intros _. by destruct b.
  - change (String c a +:+ b) with (String c (a +:+ b)).
    rewrite !includes_cons. intros [H | H]%orb_prop.
    + change (String c (a +:+ b)) with (String c a +:+ b).
      by rewrite (startsWith_app _ b _ H).
    + rewrite (IH H). apply orb_true_r.
Qed.

Lemma toLowerCase_app (a b : string) :
  toLowerCase (a +:+ b) = toLowerCase a +:+ toLowerCase b.
Proof. induction a as [| c a IH]; simpl; [reflexivity | by rewrite IH]. Qed.

Lemma localPart_prefix (s : string) : exists rest, s = localPart s +:+ rest.
Proof.
  unfold localPart. induction s as [| c s [rest IH]]; simpl.
  - by exists EmptyString.
  - destruct (Ascii.eqb c "@"); [by exists (String c s) |].
    destruct (split "@" s) as [| piece pieces].
    + by exists s.
    + exists rest. simpl in IH |- *. by rewrite IH at 1.
Qed.

Lemma existsb_vocabulary (vocabulary : list string) (text : string) :
  matchesVocabulary vocabulary text ->
  existsb (includes (toLowerCase text)) vocabulary = true.
Proof.
  intros (word & Hin & Hword). apply existsb_exists.
  exists word. split; [by apply list_elem_of_In | exact Hword].
Qed.

Lemma localPart_matches (vocabulary : list string) (address : string) :
  matchesVocabulary vocabulary (localPart address) ->
  matchesVocabulary vocabulary address.
Proof.
  intros (word & Hin & Hword). exists word. split; [exact Hin |].
  destruct (localPart_prefix address) as [rest Hrest].
  rewrite Hrest, toLowerCase_app. by apply includes_app.
Qed.

Lemma vocabulary_existsb (vocabulary : list string) (text : string) :
  existsb (includes (toLowerCase text)) vocabulary = true ->
  matchesVocabulary vocabulary text.
Proof.
  intros (word & Hin & Hword)%existsb_exists. exists word.
  split; [by apply list_elem_of_In | exact Hword].
Qed.

(** C5, as the code has it.  The code keeps two vocabularies, one for the
    origin address and one for the subject.  An item whose origin address,
    and so in particular whose origin local part, contains a word of the
    sender list [TRANSACTIONAL_PATTERNS], or whose subject contains a phrase
    of the subject list [transactionalSubjectPatterns] (both lower-cased
    first), is classified [transactional] with confidence exactly 0.9,
    whatever its unsubscribe descriptor, labels, sender domain, headers and
    the sender statistics supplied: the statement quantifies over the whole
    item and over the statistics.  Conversely, an item is classified
    [transactional] only if one of these two matches holds: a word of the
    sender list in the subject, or a phrase of the subject list in the
    address, does not make the item transactional. *)
Theorem transactional_override
    (email : NormalizedEmail) (senderStats : option SenderStats) :
  (matchesVocabulary TRANSACTIONAL_PATTERNS (localPart (sender email))
   \/ matchesVocabulary TRANSACTIONAL_PATTERNS (sender email)
   \/ matchesVocabulary transactionalSubjectPatterns (subject email) ->
   type (detectNewsletter email senderStats) = transactional
   /\ confidence (detectNewsletter email senderStats) = 0.9%Q)
  /\ (type (detectNewsletter email senderStats) = transactional ->
      matchesVocabulary TRANSACTIONAL_PATTERNS (sender email)
      \/ matchesVocabulary transactionalSubjectPatterns (subject email)).
Proof.
  split.
  - intros Hmatch.
    assert (isTransactional email = true) as Htx.
    { unfold isTransactional. destruct Hmatch as [Hs | [Hs | Hs]].
      - by rewrite (existsb_vocabulary _ _ (localPart_matches _ _ Hs)).
      - by rewrite (existsb_vocabulary _ _ Hs).
      - rewrite (existsb_vocabulary _ _ Hs). by destruct (existsb _ _). }
    unfold detectNewsletter. rewrite Htx. split; reflexivity.
  - intros Htype.
    assert (isTransactional email = true) as Htx.
    { revert Htype. unfold detectNewsletter.
      destruct (isTransactional email); [done |].
      destruct (isLikelyPersonalSender email); [done |].
      simpl. by repeat case_match. }
    unfold isTransactional in Htx.
    destruct (existsb (includes (toLowerCase (sender email)))
                TRANSACTIONAL_PATTERNS) eqn:Hsender.
    + left. by apply vocabulary_existsb.
    + right. by apply vocabulary_existsb.
Qed.

Lemma checkListUnsubscribe_range (email : NormalizedEmail) :
  (0 <= checkListUnsubscribe email <= 1)%Q.
Proof.
  unfold checkListUnsubscribe. destruct (_ || _); split; q_const.
Qed.

(** The weighted sum is monotone in the unsubscribe signal when every other
    signal is the same. *)
Lemma finalScore_mono (e e' : NormalizedEmail) (st : option SenderStats) :
  checkProviderCategory e' = checkProviderCategory e ->
  checkSenderDomain e' = checkSenderDomain e ->
  analyzeHeaders e' = analyzeHeaders e ->
  (checkListUnsubscribe e <= checkListUnsubscribe e')%Q ->
  (finalScore e st <= finalScore e' st)%Q.
Proof.
  intros Hc Hd Hh Hu. unfold finalScore. rewrite Hc, Hd, Hh.
  repeat apply Qplus_le_compat; try apply Qle_refl.
  apply Qmult_le_compat_r; [exact Hu | q_const].
Qed.

Lemma Qmin_mono_l (a b c : Q) : (a <= b)%Q -> (Qmin a c <= Qmin b c)%Q.
Proof. intros H. apply Q.min_le_compat_r. exact H. Qed.

Lemma detect_mono (e e' : NormalizedEmail) (st : option SenderStats) :
  isTransactional e' = isTransactional e ->
  isLikelyPersonalSender e' = isLikelyPersonalSender e ->
  (finalScore e st <= finalScore e' st)%Q ->
  (confidence (detectNewsletter e st)
   <= confidence (detectNewsletter e' st))%Q.
Proof.
  intros Ht Hp Hs. unfold detectNewsletter. rewrite Ht, Hp.
  destruct (isTransactional e); [apply Qle_refl |].
  destruct (isLikelyPersonalSender e); [apply Qle_refl |].
  simpl. by apply Qmin_mono_l.
Qed.

(** C8.  For an item that matches neither override, putting an unsubscribe
    header (an HTTP URL, or a mailto address) where the item had none lowers
    neither the weighted score nor the confidence returned. *)
Theorem unsubscribe_header_never_lowers_score
    (email : NormalizedEmail) (senderStats : option SenderStats)
    (value : string) :
  isTransactional email = false ->
  isLikelyPersonalSender email = false ->
  (truthy (http (listUnsubscribe email)) = false ->
   (finalScore email senderStats
    <= finalScore (addHttpUnsubscribe value email) senderStats)%Q
   /\ (confidence (detectNewsletter email senderStats)
       <= confidence
            (detectNewsletter (addHttpUnsubscribe value email) senderStats))%Q)
  /\ (truthy (mailto (listUnsubscribe email)) = false ->
      (finalScore email senderStats
       <= finalScore (addMailtoUnsubscribe value email) senderStats)%Q
      /\ (confidence (detectNewsletter email senderStats)
          <= confidence
               (detectNewsletter (addMailtoUnsubscribe value email)
                  senderStats))%Q).
Proof.
  intros _ _. split; intros Hnone.
  - assert (finalScore email senderStats
            <= finalScore (addHttpUnsubscribe value email) senderStats)%Q.
    { apply finalScore_mono; try reflexivity.
      unfold checkListUnsubscribe. simpl. rewrite Hnone. simpl.
      destruct (negb (String.eqb value "")); simpl;
        [| apply Qle_refl].
      destruct (truthy (mailto _)); q_const. }
    split; [assumption |]. by apply detect_mono.
  - assert (finalScore email senderStats
            <= finalScore (addMailtoUnsubscribe value email) senderStats)%Q.
    { apply finalScore_mono; try reflexivity.
      unfold checkListUnsubscribe. simpl. rewrite Hnone. simpl.
      rewrite orb_false_r.
      destruct (truthy (http _)); simpl; [apply Qle_refl |].
      destruct (negb (String.eqb value "")); q_const. }
    split; [assumption |]. by apply detect_mono.
Qed.

End DetectionFacts.

Section DetectionWitnesses.
Import JS Detection Sample.

(** C5 as stated fails: there is no single vocabulary.  A subject that
    speaks of a shipment, a payment and a receipt, all three of them
    transactional markers, does not make the item transactional: from an
    address without such a word, the item is classified [unknown].  Nor does
    a local part that is a marker of the subject list. *)
Lemma subject_marker_is_not_an_override :
  matchesVocabulary transactionalVocabulary (subject parcelNote)
  /\ matchesVocabulary TRANSACTIONAL_PATTERNS (subject parcelNote)
  /\ type (detectNewsletter parcelNote None) = unknown
  /\ type (detectNewsletter parcelNote (Some keenStats)) = unknown
  /\ matchesVocabulary transactionalVocabulary (localPart (sender flightDeals))
  /\ type (detectNewsletter flightDeals None) = unknown.
Proof.
  assert ("receipt" ∈ TRANSACTIONAL_PATTERNS) as Hreceipt
    by (apply list_elem_of_In; simpl; tauto).
  assert ("flight" ∈ transactionalSubjectPatterns) as Hflight
    by (apply list_elem_of_In; simpl; tauto).
  split; [| split; [| split; [| split; [| split]]]].
  - exists "receipt". split; [| reflexivity].
    apply elem_of_app. by left.
  - exists "receipt". by split.
  - by vm_compute.
  - by vm_compute.
  - exists "flight". split; [| reflexivity].
    apply elem_of_app. by right.
  - by vm_compute.
Qed.

Lemma transactional_override_witness :
  (type (detectNewsletter receipt (Some keenStats)) = transactional
   /\ confidence (detectNewsletter receipt (Some keenStats)) = 0.9%Q)
  /\ (matchesVocabulary TRANSACTIONAL_PATTERNS (sender receipt)
      \/ matchesVocabulary transactionalSubjectPatterns (subject receipt)).
Proof.
  destruct (transactional_override receipt (Some keenStats))
    as [Hoverride Honly].
  assert (type (detectNewsletter receipt (Some keenStats)) = transactional
          /\ confidence (detectNewsletter receipt (Some keenStats)) = 0.9%Q)
    as Hresult.
  { apply Hoverride. left. exists "receipt". split; [| reflexivity].
    apply list_elem_of_In. simpl. tauto. }
  split; [exact Hresult |]. apply Honly, Hresult.
Defined.

Lemma unsubscribe_header_witness :
  ((finalScore (from "shop.example" "m1") (Some keenStats)
    <= finalScore
         (addHttpUnsubscribe "https://shop.example/u" (from "shop.example" "m1"))
         (Some keenStats))%Q
   /\ (confidence (detectNewsletter (from "shop.example" "m1") (Some keenStats))
       <= confidence
            (detectNewsletter
               (addHttpUnsubscribe "https://shop.example/u"
                  (from "shop.example" "m1"))
               (Some keenStats)))%Q)
  /\ ((finalScore (from "shop.example" "m1") (Some keenStats)
       <= finalScore
            (addMailtoUnsubscribe "https://shop.example/u"
               (from "shop.example" "m1"))
            (Some keenStats))%Q
      /\ (confidence
            (detectNewsletter (from "shop.example" "m1") (Some keenStats))
          <= confidence
               (detectNewsletter
                  (addMailtoUnsubscribe "https://shop.example/u"
                     (from "shop.example" "m1"))
                  (Some keenStats)))%Q).
Proof.
  destruct (unsubscribe_header_never_lowers_score
              (from "shop.example" "m1") (Some keenStats)
              "https://shop.example/u")
    as [Hhttp Hmailto]; [reflexivity | reflexivity |].
  split; [apply Hhttp | apply Hmailto]; reflexivity.
Defined.

End DetectionWitnesses.

(** ** The block engine *)
Section BlockFacts.
Import Detection Block.


End BlockFacts.

Section BlockWitnesses.
Import Detection Block Sample.



End BlockWitnesses.

(** ** The unsubscribe engine *)
Section UnsubscribeFacts.
Import JS Detection Unsubscribe.

Variable fetch : Method -> string -> Z -> FetchOutcome.
Variable parseURL : string -> option (string * string).
Variable searchParam : string -> string -> option string.

Lemma suspicious_needs_confirmation (url : string) (email : NormalizedEmail) :
  allowed (canBlockSender email) = true ->
  http (listUnsubscribe email) = Some url ->
  startsWith url "https://" = true ->
  isSuspiciousLink url = true ->
  checkUnsubscribeSafety email
  = {| safe := true; safety_requiresConfirmation := true;
       safety_reason :=
         Some "Unsubscribe link looks suspicious. Please confirm." |}.
Proof.
  intros Hgate Hhttp Hhttps Hsusp. unfold checkUnsubscribeSafety.
  rewrite Hgate, Hhttp, Hsusp. by destruct url.
Qed.

(** C3, as the code has it.  For an item the sender safety gate lets
    through, whose only unsubscribe channel is a suspicious HTTPS link (no
    mailto address):
    - when the caller confirms the unsafe link, the HTTPS attempt and its
      retry do not succeed, no block-filter capability is supplied and the
      spam-mark capability succeeds, [executeUnsubscribe] reports success
      with method [spam], [fallbackUsed] set and the token;
    - when the caller does not confirm ([confirmUnsafe] absent or false),
      the call stops at the safety gate, whatever the network and the
      capabilities are: it reports failure, with [requiresConfirmation] and
      the reason in the metadata, and no token. *)
Theorem suspicious_link_is_gated_then_falls_back_to_spam
    (uuid url : string) (email : NormalizedEmail) (options : Options) :
  allowed (canBlockSender email) = true ->
  http (listUnsubscribe email) = Some url ->
  startsWith url "https://" = true ->
  isSuspiciousLink url = true ->
  mailto (listUnsubscribe email) = None ->
  (confirmUnsafe options = Some true ->
   http_success (httpUnsubscribe fetch url 0) = false ->
   createBlockFilter options = None ->
   (exists mark, markAsSpam options = Some mark
                 /\ mark (id email) = Resolved true) ->
   executeUnsubscribe fetch parseURL searchParam uuid email options
   = Resolved
       {| success := true; method := m_spam; fallbackUsed := true;
          undoToken := Some uuid;
          metadata := [("emailId", MStr (id email))] |})
  /\ (confirmUnsafe options <> Some true ->
      executeUnsubscribe fetch parseURL searchParam uuid email options
      = Resolved
          {| success := false; method := m_http; fallbackUsed := false;
             undoToken := None;
             metadata :=
               [("requiresConfirmation", MBool true);
                ("reason",
                 MOptStr
                   (Some "Unsubscribe link looks suspicious. Please confirm."))]
          |}).
Proof.
  intros Hgate Hhttp Hhttps Hsusp Hmailto.
  unfold executeUnsubscribe.
  rewrite (suspicious_needs_confirmation url email Hgate Hhttp Hhttps Hsusp).
  cbn [safe safety_requiresConfirmation safety_reason negb andb].
  split.
  - intros Hconfirm Hfail Hblock (mark & Hspam & Hmark).
    rewrite Hconfirm. simpl. rewrite Hhttp, Hfail, andb_false_r.
    unfold afterHttp. rewrite Hmailto, Hblock, Hspam, Hmark. reflexivity.
  - intros Hconfirm.
    destruct (confirmUnsafe options) as [[|] |]; [done | reflexivity ..].
Qed.

End UnsubscribeFacts.

Section UnsubscribeWitnesses.
Import JS Detection Unsubscribe Sample.

(** C3 as stated fails: on an item whose only channel is a suspicious HTTPS
    link, with no mailto address, no block capability and a working
    spam-mark, but no confirmation from the caller, the call stops at the
    safety gate and reports failure, asking for the confirmation. *)
Lemma unconfirmed_suspicious_link_is_refused :
  http (listUnsubscribe shortLink) = Some "https://bit.ly/3xYz"
  /\ startsWith "https://bit.ly/3xYz" "https://" = true
  /\ isSuspiciousLink "https://bit.ly/3xYz" = true
  /\ mailto (listUnsubscribe shortLink) = None
  /\ createBlockFilter spamOnly = None
  /\ (exists mark, markAsSpam spamOnly = Some mark
                   /\ mark (id shortLink) = Resolved true)
  /\ executeUnsubscribe deadNetwork (fun _ => None) (fun _ _ => None)
       "tok" shortLink spamOnly
     = Resolved
         {| success := false; method := m_http; fallbackUsed := false;
            undoToken := None;
            metadata :=
              [("requiresConfirmation", MBool true);
               ("reason",
                MOptStr
                  (Some "Unsubscribe link looks suspicious. Please confirm."))]
         |}.
Proof.
  repeat split. exists (fun _ => Resolved true). split; reflexivity.
Qed.

(** Nor does a confirmed call fall back when the link answers: on a network
    that answers 200, the same item is unsubscribed over HTTP. *)
Lemma answered_suspicious_link_uses_http :
  exists result,
    executeUnsubscribe kindNetwork (fun _ => None) (fun _ _ => None)
      "tok" shortLink spamOnlyConfirmed
    = Resolved result
    /\ success result = true
    /\ method result = m_http
    /\ fallbackUsed result = false.
Proof. eexists. split; [reflexivity |]. by repeat split. Qed.

Lemma suspicious_link_witness :
  executeUnsubscribe deadNetwork (fun _ => None) (fun _ _ => None)
    "tok" shortLink spamOnlyConfirmed
  = Resolved
      {| success := true; method := m_spam; fallbackUsed := true;
         undoToken := Some "tok";
         metadata := [("emailId", MStr "m9")] |}
  /\ executeUnsubscribe kindNetwork (fun _ => None) (fun _ _ => None)
       "tok" shortLink spamOnly
     = Resolved
         {| success := false; method := m_http; fallbackUsed := false;
            undoToken := None;
            metadata :=
              [("requiresConfirmation", MBool true);
               ("reason",
                MOptStr
                  (Some "Unsubscribe link looks suspicious. Please confirm."))]
         |}.
Proof.
  split.
  - destruct (suspicious_link_is_gated_then_falls_back_to_spam
                deadNetwork (fun _ => None) (fun _ _ => None)
                "tok" "https://bit.ly/3xYz" shortLink spamOnlyConfirmed
                eq_refl eq_refl eq_refl eq_refl eq_refl)
      as [Hconfirmed _].
    apply Hconfirmed; try reflexivity.
    exists (fun _ => Resolved true). by split.
  - destruct (suspicious_link_is_gated_then_falls_back_to_spam
                kindNetwork (fun _ => None) (fun _ _ => None)
                "tok" "https://bit.ly/3xYz" shortLink spamOnly
                eq_refl eq_refl eq_refl eq_refl eq_refl)
      as [_ Hrefused].
    by apply Hrefused.
Defined.

End UnsubscribeWitnesses.

(** ** The adaptive buffer *)
Section BufferFacts.
Import Buffer.

Implicit Types (b : SwipeBuffer) (w todo : list NormalizedEmail)
  (processed : gset string) (e : NormalizedEmail).

(** *** Every operation leaves the window synchronised *)

Lemma syncWindow_synced b : synced (syncWindow b).
Proof. reflexivity. Qed.

Lemma syncWindow_fullQueue b : fullQueue (syncWindow b) = fullQueue b.
Proof. reflexivity. Qed.

Lemma syncWindow_idem b : syncWindow (syncWindow b) = syncWindow b.
Proof. reflexivity. Qed.

Lemma refill_synced b : synced (fst (refill b)).
Proof. unfold refill. destruct (onRefillRequired _ _); apply syncWindow_synced. Qed.

Lemma refill_config b : config (fst (refill b)) = config b.
Proof. unfold refill. by destruct (onRefillRequired _ _). Qed.

Lemma afterRemoval_synced b : synced (fst (afterRemoval b)).
Proof.
  unfold afterRemoval. destruct (_ && _); [| apply syncWindow_synced].
  pose proof (refill_synced b) as Hs.
  destruct (refill b) as [b' [[] | reason]]; simpl in *;
    [apply syncWindow_synced | exact Hs].
Qed.

Lemma afterRemoval_config b : config (fst (afterRemoval b)) = config b.
Proof.
  unfold afterRemoval. destruct (_ && _); [| reflexivity].
  pose proof (refill_config b) as Hc.
  by destruct (refill b) as [b' [[] | reason]].
Qed.

Lemma runOp_synced (o : Op) b : synced (fst (runOp o b)).
Proof.
  destruct o; simpl;
    [apply afterRemoval_synced | apply afterRemoval_synced
     | apply syncWindow_synced | apply syncWindow_synced].
Qed.

Lemma runOp_config (o : Op) b : config (fst (runOp o b)) = config b.
Proof.
  destruct o; simpl; try reflexivity;
    unfold consumeItem, consumeBatch; by rewrite afterRemoval_config.
Qed.

Lemma runOps_synced (os : list Op) b : synced b -> synced (runOps os b).
Proof.
  revert b. induction os as [| o os IH]; intros b Hb; [exact Hb |].
  simpl. apply IH, runOp_synced.
Qed.

Lemma runOps_config (os : list Op) b : config (runOps os b) = config b.
Proof.
  revert b. induction os as [| o os IH]; intros b; [reflexivity |].
  simpl. by rewrite IH, runOp_config.
Qed.

(** *** What the grouping loop emits, for any window *)

Lemma filter_length_le {A} (P Q : A -> Prop)
    `{!forall x, Decision (P x)} `{!forall x, Decision (Q x)} (l : list A) :
  (forall x, x ∈ l -> P x -> Q x) ->
  length (filter P l) <= length (filter Q l).
Proof.
  induction l as [| x l IH]; intros Himp; [reflexivity |].
  assert (length (filter P l) <= length (filter Q l)) as IH'.
  { apply IH. intros y Hy. apply Himp. by right. }
  rewrite !filter_cons.
  destruct (decide (P x)) as [HP | HP], (decide (Q x)) as [HQ | HQ];
    simpl; try lia.
  destruct HQ. apply Himp; [left | exact HP].
Qed.

Lemma filter_length_lt {A} (P Q : A -> Prop)
    `{!forall x, Decision (P x)} `{!forall x, Decision (Q x)}
    (l : list A) (a : A) :
  (forall x, x ∈ l -> P x -> Q x) ->
  a ∈ l -> Q a -> ¬ P a ->
  length (filter P l) < length (filter Q l).
Proof.
  induction l as [| x l IH]; intros Himp Ha HQ HP;
    [by apply elem_of_nil in Ha |].
  assert (length (filter P l) <= length (filter Q l)) as Hle.
  { apply filter_length_le. intros y Hy. apply Himp. by right. }
  rewrite !filter_cons.
  apply elem_of_cons in Ha as [<- | Ha].
  - rewrite (decide_False (P:=P a)), (decide_True (P:=Q a)) by done.
    simpl. lia.
  - assert (length (filter P l) < length (filter Q l)) as Hlt.
    { apply IH; try done. intros y Hy. apply Himp. by right. }
    destruct (decide (P x)) as [Hx | Hx], (decide (Q x)) as [Hx' | Hx'];
      simpl; try lia.
    destruct Hx'. apply Himp; [left | exact Hx].
Qed.

Lemma filter_length_split {A} (P Q : A -> Prop)
    `{!forall x, Decision (P x)} `{!forall x, Decision (Q x)} (l : list A) :
  length (filter P l)
  = length (filter (λ x, Q x ∧ P x) l) + length (filter (λ x, P x ∧ ¬ Q x) l).
Proof.
  induction l as [| x l IH]; [reflexivity |].
  rewrite !filter_cons.
  destruct (decide (P x)), (decide (Q x)); repeat case_decide;
    simpl; try lia; tauto.
Qed.

Lemma groupLoop_cons w processed e todo :
  groupLoop w processed (e :: todo)
  = if decide (id e ∈ processed) then groupLoop w processed todo
    else if 5 <=? length (sameDomainOf w processed e) then
      boss (hd e (sameDomainOf w processed e))
           (length (sameDomainOf w processed e))
        :: groupLoop w
             (processed ∪ list_to_set (ids (sameDomainOf w processed e))) todo
    else single e :: groupLoop w (processed ∪ {[id e]}) todo.
Proof. reflexivity. Qed.

Lemma groupLoop_length w processed todo :
  length (groupLoop w processed todo) <= length todo.
Proof.
  revert processed. induction todo as [| e todo IH]; intros processed;
    [reflexivity |].
  rewrite groupLoop_cons.
  case_decide; [specialize (IH processed); simpl; lia |].
  destruct (5 <=? length (sameDomainOf w processed e)); simpl;
    [specialize (IH (processed ∪ list_to_set (ids (sameDomainOf w processed e))))
    | specialize (IH (processed ∪ {[id e]}))]; lia.
Qed.

Lemma sameDomainOf_le w processed e :
  length (sameDomainOf w processed e) <= domainCount (senderDomain e) w.
Proof.
  unfold sameDomainOf, domainCount, fromDomain.
  apply filter_length_le. by intros x _ [? _].
Qed.

Lemma sameDomainOf_head w processed e :
  5 <= length (sameDomainOf w processed e) ->
  hd e (sameDomainOf w processed e) ∈ w
  /\ senderDomain (hd e (sameDomainOf w processed e)) = senderDomain e.
Proof.
  intros Hlen.
  destruct (sameDomainOf w processed e) as [| e0 l] eqn:Hs; simpl in *; [lia |].
  assert (e0 ∈ sameDomainOf w processed e) as Hin by (rewrite Hs; left).
  apply list_elem_of_filter in Hin as [[Hd _] Hw]. by split.
Qed.

Lemma groupLoop_items w processed todo (item : BufferItem) :
  todo ⊆ w ->
  item ∈ groupLoop w processed todo ->
  email item ∈ w
  /\ expanded item <= domainCount (senderDomain (email item)) w.
Proof.
  revert processed. induction todo as [| e todo IH]; intros processed Hsub;
    [by intros ?%elem_of_nil |].
  assert (e ∈ w) as He by (apply Hsub; left).
  assert (todo ⊆ w) as Hsub' by (intros x Hx; apply Hsub; by right).
  rewrite groupLoop_cons.
  case_decide; [by apply IH |].
  destruct (Nat.leb_spec 5 (length (sameDomainOf w processed e))) as [Hfive | _].
  - intros [-> | Hin]%elem_of_cons; [| by eapply IH].
    destruct (sameDomainOf_head w processed e Hfive) as [Hw Hd].
    split; [exact Hw |]. unfold expanded. simpl. rewrite Hd.
    apply sameDomainOf_le.
  - intros [-> | Hin]%elem_of_cons; [| by eapply IH].
    split; [exact He |]. unfold expanded, domainCount, fromDomain. simpl.
    assert (e ∈ filter (λ x, senderDomain x = senderDomain e) w) as Hin
      by (by apply list_elem_of_filter).
    destruct (filter _ w); [by apply elem_of_nil in Hin | simpl; lia].
Qed.

Lemma pending_single w processed e :
  e ∈ w -> id e ∉ processed ->
  S (length (pending (processed ∪ {[id e]}) w)) <= length (pending processed w).
Proof.
  intros He Hfresh. unfold pending.
  apply (filter_length_lt (λ x, id x ∉ processed ∪ {[id e]})
           (λ x, id x ∉ processed) w e); [| exact He | exact Hfresh |].
  - intros x _ Hx Hp. apply Hx, elem_of_union. by left.
  - intros Hx. apply Hx, elem_of_union. right. by apply elem_of_singleton.
Qed.

Lemma pending_group w processed e :
  length (sameDomainOf w processed e)
  + length (pending (processed ∪ list_to_set (ids (sameDomainOf w processed e))) w)
  <= length (pending processed w).
Proof.
  unfold pending at 2.
  rewrite (filter_length_split _ (λ x, senderDomain x = senderDomain e) w).
  apply Nat.add_le_mono; [reflexivity |].
  apply filter_length_le. intros x Hx Hout. split; [set_solver |].
  intros Hd. apply Hout, elem_of_union. right.
  apply elem_of_list_to_set, list_elem_of_fmap. exists x. split; [done |].
  apply list_elem_of_filter. split; [| exact Hx]. split; [exact Hd | set_solver].
Qed.

Lemma expanded_cons (item : BufferItem) (items : list BufferItem) :
  sum_list (expanded <$> item :: items)
  = expanded item + sum_list (expanded <$> items).
Proof. reflexivity. Qed.

Lemma groupLoop_expanded w processed todo :
  todo ⊆ w ->
  sum_list (expanded <$> groupLoop w processed todo)
  <= length (pending processed w).
Proof.
  revert processed. induction todo as [| e todo IH]; intros processed Hsub;
    [simpl; lia |].
  assert (e ∈ w) as He by (apply Hsub; left).
  assert (todo ⊆ w) as Hsub' by (intros x Hx; apply Hsub; by right).
  rewrite groupLoop_cons.
  case_decide as Hseen; [by apply IH |].
  destruct (5 <=? length (sameDomainOf w processed e));
    rewrite expanded_cons.
  - pose proof (pending_group w processed e).
    specialize (IH (processed ∪ list_to_set (ids (sameDomainOf w processed e)))
                  Hsub').
    change (expanded (boss _ _)) with (length (sameDomainOf w processed e)).
    lia.
  - pose proof (pending_single w processed e He Hseen).
    specialize (IH (processed ∪ {[id e]}) Hsub').
    change (expanded (single e)) with 1. lia.
Qed.

(** C10.  [nukeDomain(domain)] keeps, in their order, exactly the entries of
    the backing queue whose [senderDomain] is not the very string [domain]:
    an entry is gone if and only if its domain equals the argument, so an
    entry whose domain differs from it, be it in letter case only, stays.
    The callback of the buffer is not invoked, and nothing is in flight
    afterwards that was not before. *)
Theorem nukeDomain_removes_exactly_the_domain (domain : string) b :
  fullQueue (nukeDomain domain b)
  = filter (λ e, senderDomain e ≠ domain) (fullQueue b)
  /\ (forall e, e ∈ fullQueue (nukeDomain domain b)
                <-> e ∈ fullQueue b /\ senderDomain e ≠ domain)
  /\ (forall e, e ∈ fullQueue b ->
        senderDomain e ≠ domain ->
        JS.toLowerCase (senderDomain e) = JS.toLowerCase domain ->
        e ∈ fullQueue (nukeDomain domain b))
  /\ fullQueue (nukeDomain domain b) `sublist_of` fullQueue b
  /\ refillCalls (nukeDomain domain b) = refillCalls b
  /\ isFetching (nukeDomain domain b) = isFetching b
  /\ synced (nukeDomain domain b).
Proof.
  split; [reflexivity |]. split; [| split; [| split]].
  - intros e. simpl. rewrite list_elem_of_filter. tauto.
  - intros e He Hne _. simpl. by apply list_elem_of_filter.
  - simpl. apply sublist_filter.
  - repeat split.
Qed.

(** What a call that has removed its identifiers does when the refill it
    triggers is rejected. *)
Lemma afterRemoval_rejected b (reason : string) :
  length (activeWindow b) <= triggerThreshold (config b) ->
  isFetching b = false ->
  onRefillRequired b (refillCalls b) = Rejected reason ->
  afterRemoval b
  = (syncWindow (count_call (set_isFetching false b)), Rejected reason).
Proof.
  intros Hlow Hidle Hrej. unfold afterRemoval.
  apply Nat.leb_le in Hlow. rewrite Hlow, Hidle. simpl.
  unfold refill. simpl. by rewrite Hrej.
Qed.

(** C1, as the code has it.  When the refill a [consumeItem] or
    [consumeBatch] call triggers is rejected by the callback, the call
    clears the fetching flag, appends nothing to the backing queue (which
    only loses the consumed identifiers) and leaves the window
    synchronised; the rejection itself is not absorbed: the call settles as
    rejected, with the reason the callback gave. *)
Theorem rejected_refill_clears_flag_and_propagates b (reason : string) :
  isFetching b = false ->
  onRefillRequired b (refillCalls b) = Rejected reason ->
  (forall i,
     length (filter (λ item, id (email item) ≠ i) (activeWindow b))
       <= triggerThreshold (config b) ->
     snd (consumeItem i b) = Rejected reason
     /\ isFetching (fst (consumeItem i b)) = false
     /\ fullQueue (fst (consumeItem i b))
        = filter (λ e, id e ≠ i) (fullQueue b)
     /\ refillCalls (fst (consumeItem i b)) = S (refillCalls b)
     /\ synced (fst (consumeItem i b)))
  /\ (forall idList,
        length (filter (λ item, id (email item) ∉ (list_to_set idList : gset string))
                  (activeWindow b))
          <= triggerThreshold (config b) ->
        snd (consumeBatch idList b) = Rejected reason
        /\ isFetching (fst (consumeBatch idList b)) = false
        /\ fullQueue (fst (consumeBatch idList b))
           = filter (λ e, id e ∉ (list_to_set idList : gset string))
               (fullQueue b)
        /\ refillCalls (fst (consumeBatch idList b)) = S (refillCalls b)
        /\ synced (fst (consumeBatch idList b))).
Proof.
  intros Hidle Hrej. split.
  - intros i Hlow. unfold consumeItem.
    rewrite (afterRemoval_rejected _ reason);
      [by repeat split | exact Hlow | exact Hidle | exact Hrej].
  - intros idList Hlow. unfold consumeBatch.
    rewrite (afterRemoval_rejected _ reason);
      [by repeat split | exact Hlow | exact Hidle | exact Hrej].
Qed.

End BufferFacts.

(** *** The grouping loop against the specification's wording *)
Section Grouping.
Import Buffer.

Variable w : list NormalizedEmail.
Hypothesis distinct : NoDup (ids w).

Implicit Types (done todo : list NormalizedEmail) (processed : gset string)
  (e x : NormalizedEmail) (d : string).

Lemma id_determines x e : x ∈ w -> e ∈ w -> id x = id e -> x = e.
Proof using distinct.
  clear -distinct. unfold ids in distinct.
  induction w as [| a l IH]; [by intros ?%elem_of_nil |].
  rewrite fmap_cons in distinct.
  apply NoDup_cons in distinct as [Ha Hl].
  intros [-> | Hx]%elem_of_cons [-> | He]%elem_of_cons Hid;
    [reflexivity | | | by apply IH].
  - destruct Ha. rewrite Hid. by apply list_elem_of_fmap_2.
  - destruct Ha. rewrite <- Hid. by apply list_elem_of_fmap_2.
Qed.

Lemma filter_ext_in {A} (P Q : A -> Prop)
    `{!forall a, Decision (P a)} `{!forall a, Decision (Q a)} (l : list A) :
  (forall a, a ∈ l -> P a <-> Q a) -> filter P l = filter Q l.
Proof.
  induction l as [| a l IH]; intros Hext; [reflexivity |].
  rewrite !filter_cons, IH by (intros y Hy; apply Hext; by right).
  destruct (decide (P a)) as [Hp | Hp], (decide (Q a)) as [Hq | Hq];
    try reflexivity; exfalso.
  - apply Hq, (Hext a); [left | exact Hp].
  - apply Hp, (Hext a); [left | exact Hq].
Qed.

Lemma filter_none {A} (P : A -> Prop) `{!forall a, Decision (P a)}
    (l : list A) :
  ¬ Exists P l -> filter P l = [].
Proof.
  intros Hnone. induction l as [| a l IH]; [reflexivity |].
  rewrite filter_cons, decide_False.
  - apply IH. intros Hl. apply Hnone. by right.
  - intros Ha. apply Hnone. by left.
Qed.

Lemma processedAfter_nil : processedAfter w [] ∅.
Proof.
  intros x _. split; [by intros ?%not_elem_of_empty |].
  intros [[?%elem_of_nil _] | [_ ?%Exists_nil]]; done.
Qed.

Lemma processedAfter_skip done processed e :
  processedAfter w done processed ->
  5 <= domainCount (senderDomain e) w ->
  Exists (λ y, senderDomain y = senderDomain e) done ->
  processedAfter w (done ++ [e]) processed.
Proof.
  intros Hinv Hbig Hseen x Hx. rewrite (Hinv x Hx). split.
  - intros [[Hd Hsmall] | [Hb Hex]]; [left | right].
    + split; [| exact Hsmall]. apply elem_of_app. by left.
    + split; [exact Hb |]. apply Exists_app. by left.
  - intros [[Hd Hsmall] | [Hb Hex]]; [left | right].
    + split; [| exact Hsmall].
      apply elem_of_app in Hd as [Hd | ->%list_elem_of_singleton];
        [exact Hd | lia].
    + split; [exact Hb |].
      apply Exists_app in Hex as [Hex | Hex]; [exact Hex |].
      apply Exists_cons in Hex as [Heq | ?%Exists_nil]; [| done].
      by rewrite <- Heq.
Qed.

Lemma processedAfter_boss done processed e :
  processedAfter w done processed ->
  5 <= domainCount (senderDomain e) w ->
  processedAfter w (done ++ [e])
    (processed ∪ list_to_set (ids (fromDomain (senderDomain e) w))).
Proof using distinct.
  intros Hinv Hbig x Hx. rewrite elem_of_union, (Hinv x Hx). split.
  - intros [[[Hd Hsmall] | [Hb Hex]] | Hin].
    + left. split; [| exact Hsmall]. apply elem_of_app. by left.
    + right. split; [exact Hb |]. apply Exists_app. by left.
    + apply elem_of_list_to_set, list_elem_of_fmap in Hin as (y & Hid & Hy).
      apply list_elem_of_filter in Hy as [Hdom Hy].
      assert (x = y) as -> by (by apply id_determines).
      right. rewrite Hdom. split; [exact Hbig |].
      apply Exists_app. right. apply Exists_cons. by left.
  - intros [[Hd Hsmall] | [Hb Hex]].
    + apply elem_of_app in Hd as [Hd | ->%list_elem_of_singleton]; [| lia].
      left. left. by split.
    + apply Exists_app in Hex as [Hex | Hex]; [left; right; by split |].
      apply Exists_cons in Hex as [Heq | ?%Exists_nil]; [| done].
      right. apply elem_of_list_to_set, list_elem_of_fmap.
      exists x. split; [reflexivity |]. by apply list_elem_of_filter.
Qed.

Lemma processedAfter_single done processed e :
  processedAfter w done processed ->
  e ∈ w ->
  domainCount (senderDomain e) w < 5 ->
  processedAfter w (done ++ [e]) (processed ∪ {[id e]}).
Proof using distinct.
  intros Hinv He Hsmall x Hx.
  rewrite elem_of_union, elem_of_singleton, (Hinv x Hx). split.
  - intros [[[Hd Hs] | [Hb Hex]] | Hid].
    + left. split; [| exact Hs]. apply elem_of_app. by left.
    + right. split; [exact Hb |]. apply Exists_app. by left.
    + assert (x = e) as -> by (by apply id_determines).
      left. split; [| exact Hsmall]. apply elem_of_app. right. by left.
  - intros [[Hd Hs] | [Hb Hex]].
    + apply elem_of_app in Hd as [Hd | ->%list_elem_of_singleton];
        [| by right].
      left. left. by split.
    + apply Exists_app in Hex as [Hex | Hex]; [left; right; by split |].
      apply Exists_cons in Hex as [Heq | ?%Exists_nil]; [| done].
      rewrite Heq in Hsmall. lia.
Qed.

(** The loop, started after [done] with the matching processed set, emits
    what the specification describes for the remaining entries. *)
Lemma groupLoop_groupedFrom todo done processed :
  w = done ++ todo ->
  processedAfter w done processed ->
  groupLoop w processed todo = groupedFrom w done todo.
Proof using distinct.
  revert done processed.
  induction todo as [| e rest IH]; intros done processed Hw Hinv;
    [reflexivity |].
  assert (e ∈ w) as He by (rewrite Hw; apply elem_of_app; right; left).
  assert (e ∉ done) as Hfresh.
  { intros Hd. apply NoDup_fmap_1 in distinct. rewrite Hw in distinct.
    apply NoDup_app in distinct as (_ & Hdisj & _).
    apply (Hdisj e Hd). left. }
  assert (w = (done ++ [e]) ++ rest) as Hw'
    by (by rewrite <- app_assoc).
  rewrite groupLoop_cons. simpl groupedFrom. unfold emittedAt.
  destruct (decide (5 <= domainCount (senderDomain e) w)) as [Hbig | Hsmall].
  - destruct (decide (Exists (λ x, senderDomain x = senderDomain e) done))
      as [Hseen | Hnew].
    + rewrite decide_True by (apply (Hinv e He); right; by split).
      apply (IH _ _ Hw'). by apply processedAfter_skip.
    + assert (id e ∉ processed) as Hout.
      { intros [[Hd _] | [_ Hex]]%(Hinv e He); done. }
      assert (sameDomainOf w processed e = fromDomain (senderDomain e) w)
        as Hsame.
      { apply filter_ext_in. intros x Hx. split; [by intros [? _] |].
        intros Hdom. split; [exact Hdom |].
        intros [[_ Hlt] | [_ Hex]]%(Hinv x Hx).
        - rewrite Hdom in Hlt. lia.
        - rewrite Hdom in Hex. done. }
      rewrite decide_False, Hsame by exact Hout.
      fold (domainCount (senderDomain e) w).
      apply Nat.leb_le in Hbig as Hleb. rewrite Hleb.
      assert (hd e (fromDomain (senderDomain e) w) = e) as ->.
      { unfold fromDomain. rewrite Hw, filter_app, (filter_none _ done Hnew).
        by rewrite filter_cons_True. }
      simpl. f_equal. apply (IH _ _ Hw'). by apply processedAfter_boss.
  - assert (id e ∉ processed) as Hout.
    { intros [[Hd _] | [Hb _]]%(Hinv e He); [done | lia]. }
    rewrite decide_False by exact Hout.
    pose proof (sameDomainOf_le w processed e) as Hle.
    destruct (Nat.leb_spec 5 (length (sameDomainOf w processed e)));
      [lia |].
    simpl. f_equal. apply (IH _ _ Hw'). apply processedAfter_single;
      [exact Hinv | exact He | lia].
Qed.

Lemma groupIntoBosses_grouped : groupIntoBosses w = grouped w.
Proof using distinct.
  apply groupLoop_groupedFrom; [reflexivity | apply processedAfter_nil].
Qed.

End Grouping.

Section GroupedFacts.
Import Buffer.

Implicit Types (w seen todo : list NormalizedEmail) (e : NormalizedEmail)
  (d : string).

Lemma itemsOf_app d (l k : list BufferItem) :
  itemsOf d (l ++ k) = itemsOf d l ++ itemsOf d k.
Proof. apply filter_app. Qed.

Lemma itemsOf_emittedAt_other w seen e d :
  senderDomain e ≠ d -> itemsOf d (emittedAt w seen e) = [].
Proof.
  intros Hne. unfold emittedAt, itemsOf.
  repeat case_decide; try reflexivity; by rewrite filter_cons_False.
Qed.

Lemma Exists_snoc_other d seen e :
  senderDomain e ≠ d ->
  Exists (λ x, senderDomain x = d) (seen ++ [e])
  <-> Exists (λ x, senderDomain x = d) seen.
Proof.
  intros Hne. rewrite Exists_app, Exists_cons, Exists_nil. tauto.
Qed.

(** A domain with five entries or more gives one collapsed item, at its
    first entry, unless that entry has been passed already. *)
Lemma itemsOf_groupedFrom_large w seen todo d :
  5 <= domainCount d w ->
  itemsOf d (groupedFrom w seen todo)
  = if decide (Exists (λ x, senderDomain x = d) seen) then []
    else match fromDomain d todo with
         | [] => []
         | e0 :: _ => [boss e0 (domainCount d w)]
         end.
Proof.
  intros Hbig. revert seen.
  induction todo as [| e rest IH]; intros seen; [by case_decide |].
  simpl groupedFrom. rewrite itemsOf_app, IH. unfold fromDomain.
  destruct (decide (senderDomain e = d)) as [<- | Hne].
  - rewrite filter_cons_True by done.
    rewrite (decide_True (P := Exists _ (seen ++ [e])))
      by (apply Exists_app; right; by left).
    rewrite app_nil_r. unfold emittedAt. rewrite decide_True by exact Hbig.
    case_decide; [reflexivity |]. unfold itemsOf.
    by rewrite filter_cons_True.
  - rewrite itemsOf_emittedAt_other, filter_cons_False by done. simpl.
    destruct (decide (Exists (λ x, senderDomain x = d) seen)) as [Hs | Hs].
    + by rewrite decide_True by (by apply Exists_snoc_other).
    + by rewrite decide_False by (by rewrite Exists_snoc_other).
Qed.

(** A domain with fewer than five entries gives its entries one by one. *)
Lemma itemsOf_groupedFrom_small w seen todo d :
  domainCount d w < 5 ->
  itemsOf d (groupedFrom w seen todo) = single <$> fromDomain d todo.
Proof.
  intros Hsmall. revert seen.
  induction todo as [| e rest IH]; intros seen; [reflexivity |].
  simpl groupedFrom. rewrite itemsOf_app, IH. unfold fromDomain.
  destruct (decide (senderDomain e = d)) as [<- | Hne].
  - rewrite filter_cons_True by done. unfold emittedAt.
    rewrite decide_False by lia. unfold itemsOf.
    by rewrite filter_cons_True.
  - by rewrite itemsOf_emittedAt_other, filter_cons_False.
Qed.

(** The representatives come in the order of the window. *)
Lemma groupedFrom_order w seen todo :
  email <$> groupedFrom w seen todo `sublist_of` todo.
Proof.
  revert seen. induction todo as [| e rest IH]; intros seen; [constructor |].
  simpl groupedFrom. rewrite fmap_app. unfold emittedAt.
  repeat case_decide; simpl;
    [by apply sublist_cons | by apply sublist_skip | by apply sublist_skip].
Qed.


End GroupedFacts.

Section BufferWitnesses.
Import Buffer Sample.


(** The window of five entries of one domain interleaved with four of
    another: one collapsed item, placed where the first of the five stood,
    and the four others one by one. *)
Example grouping_five_and_four :
  groupIntoBosses mixedQueue
  = [ boss (from "a.example" "1") 5; single (from "b.example" "2");
      single (from "b.example" "5"); single (from "b.example" "7");
      single (from "b.example" "9") ].
Proof. by vm_compute. Qed.


(** C1 as stated fails: a [consumeItem] call that brings the window down to
    the threshold while nothing is in flight, and whose refill is rejected
    by the callback, does not return normally; it settles as rejected, with
    the callback's reason. *)
Lemma rejected_refill_reaches_the_caller :
  isFetching starvedBuffer = false
  /\ length (filter (λ item, id (email item) ≠ "2")
               (activeWindow starvedBuffer))
     <= triggerThreshold (config starvedBuffer)
  /\ onRefillRequired starvedBuffer (refillCalls starvedBuffer)
     = Rejected "refill failed"
  /\ snd (consumeItem "2" starvedBuffer) = Rejected "refill failed"
  /\ snd (consumeItem "2" starvedBuffer) ≠ Resolved tt.
Proof.
  split; [reflexivity |]. split; [vm_compute; lia |].
  split; [reflexivity |]. split; [by vm_compute |].
  by vm_compute.
Qed.

Lemma rejected_refill_witness :
  (forall i,
     length (filter (λ item, id (email item) ≠ i) (activeWindow starvedBuffer))
       <= triggerThreshold (config starvedBuffer) ->
     snd (consumeItem i starvedBuffer) = Rejected "refill failed"
     /\ isFetching (fst (consumeItem i starvedBuffer)) = false
     /\ fullQueue (fst (consumeItem i starvedBuffer))
        = filter (λ e, id e ≠ i) (fullQueue starvedBuffer)
     /\ refillCalls (fst (consumeItem i starvedBuffer))
        = S (refillCalls starvedBuffer)
     /\ synced (fst (consumeItem i starvedBuffer)))
  /\ (forall idList,
        length (filter (λ item, id (email item) ∉ (list_to_set idList : gset string))
                  (activeWindow starvedBuffer))
          <= triggerThreshold (config starvedBuffer) ->
        snd (consumeBatch idList starvedBuffer) = Rejected "refill failed"
        /\ isFetching (fst (consumeBatch idList starvedBuffer)) = false
        /\ fullQueue (fst (consumeBatch idList starvedBuffer))
           = filter (λ e, id e ∉ (list_to_set idList : gset string))
               (fullQueue starvedBuffer)
        /\ refillCalls (fst (consumeBatch idList starvedBuffer))
           = S (refillCalls starvedBuffer)
        /\ synced (fst (consumeBatch idList starvedBuffer))).
Proof.
  apply (rejected_refill_clears_flag_and_propagates starvedBuffer
           "refill failed"); reflexivity.
Defined.

(** Letter case matters to [nukeDomain]: the entry from [Shop.example]
    survives the removal of [shop.example]. *)
Example nukeDomain_is_case_sensitive :
  id <$> fullQueue (nukeDomain "shop.example" caseBuffer) = ["2"; "3"].
Proof. by vm_compute. Qed.

End BufferWitnesses.

(** ** More on the action engine *)
Section ActionFacts.
Import JS Detection Actions.

Variable fetch : Unsubscribe.Method -> string -> Z -> Unsubscribe.FetchOutcome.
Variable parseURL : string -> option (string * string).
Variable searchParam : string -> string -> option string.
Variable gmailApi : Gmail.

Lemma expired_test (now : Z) (data : UndoData) :
  (now - u_timestamp data >? PERFORMANCE.undoWindowMs)%Z
  = bool_decide (expiredAt now data).
Proof.
  unfold expiredAt. destruct (Z.gtb_spec (now - u_timestamp data)
                                PERFORMANCE.undoWindowMs).
  - by rewrite bool_decide_eq_true_2 by lia.
  - by rewrite bool_decide_eq_false_2 by lia.
Qed.

(** X1.  A successful [delete] followed by an undo inside the window
    untrashes the message and leaves the store as it was before the action;
    a second undo with the same token does not find it. *)
Theorem delete_then_undo_round_trip
    (undoStore : gmap string UndoData) (uuid engineUuid : string)
    (now now' later later' : Z) (email : NormalizedEmail)
    (options : option ExecOptions) :
  undoStore !! uuid = None ->
  trashEmail gmailApi (providerId email) = true ->
  untrashEmail gmailApi (providerId email) = true ->
  (later - now' <= PERFORMANCE.undoWindowMs)%Z ->
  exists result undoStore',
    executeAction fetch parseURL searchParam gmailApi undoStore
      uuid engineUuid now now' A_delete email options
    = (Resolved result, undoStore')
    /\ success result = true
    /\ undoToken result = Some uuid
    /\ undoAction gmailApi undoStore' uuid later
       = ({| undo_success := true; undo_error := None |}, undoStore)
    /\ undoAction gmailApi undoStore uuid later'
       = ({| undo_success := false;
             undo_error := Some "Undo token not found or expired" |},
          undoStore).
Proof.
  intros Hfresh Htrash Huntrash Hsoon. unfold executeAction.
  rewrite Htrash. eexists _, _. split; [reflexivity |].
  split; [reflexivity |]. split; [reflexivity |]. split.
  - unfold undoAction. rewrite lookup_insert_eq, expired_test.
    rewrite bool_decide_eq_false_2 by (unfold expiredAt; simpl; lia).
    simpl. rewrite Huntrash. by rewrite delete_insert_id.
  - unfold undoAction. by rewrite Hfresh.
Qed.

Lemma executeAction_cases
    (undoStore undoStore' : gmap string UndoData) (uuid engineUuid : string)
    (now now' : Z) (action : SwipeAction) (email : NormalizedEmail)
    (options : option ExecOptions) (outcome : Settled ActionResult) :
  action <> A_keep ->
  executeAction fetch parseURL searchParam gmailApi undoStore
    uuid engineUuid now now' action email options
  = (outcome, undoStore') ->
  match outcome with
  | Resolved result =>
      if success result then
        undoToken result = Some uuid
        /\ undoExpiry result = Some (now + PERFORMANCE.undoWindowMs)%Z
        /\ exists data,
             undoStore' = <[uuid := data]> undoStore
             /\ u_action data = action
             /\ u_emailId data = id email
             /\ u_providerId data = providerId email
             /\ u_timestamp data = now'
      else
        undoToken result = None /\ undoExpiry result = None
        /\ undoStore' = undoStore
  | Rejected _ => undoStore' = undoStore
  end.
Proof.
  intros Hkeep. unfold executeAction.
  destruct action; try done; repeat case_match;
    intros [= <- <-]; simpl; try done;
    (split; [reflexivity |]); (split; [reflexivity |]);
    eexists; by repeat split.
Qed.

(** X2.  For every action but [keep], a token is handed out exactly when
    the action succeeds, and exactly then a record is written under it,
    carrying the action, the item and the time of writing; a failed or
    rejected action leaves the store untouched. *)
Theorem executeAction_records_exactly_on_success
    (undoStore : gmap string UndoData) (uuid engineUuid : string)
    (now now' : Z) (action : SwipeAction) (email : NormalizedEmail)
    (options : option ExecOptions) :
  action <> A_keep ->
  let outcome :=
    fst (executeAction fetch parseURL searchParam gmailApi undoStore
           uuid engineUuid now now' action email options) in
  let undoStore' :=
    snd (executeAction fetch parseURL searchParam gmailApi undoStore
           uuid engineUuid now now' action email options) in
  match outcome with
  | Resolved result =>
      if success result then
        undoToken result = Some uuid
        /\ undoExpiry result = Some (now + PERFORMANCE.undoWindowMs)%Z
        /\ exists data,
             undoStore' = <[uuid := data]> undoStore
             /\ u_action data = action
             /\ u_emailId data = id email
             /\ u_providerId data = providerId email
             /\ u_timestamp data = now'
      else
        undoToken result = None /\ undoExpiry result = None
        /\ undoStore' = undoStore
  | Rejected _ => undoStore' = undoStore
  end.
Proof.
  intros Hkeep.
  destruct (executeAction fetch parseURL searchParam gmailApi undoStore
              uuid engineUuid now now' action email options)
    as [outcome undoStore'] eqn:Hrun.
  simpl. by apply (executeAction_cases _ _ _ _ _ _ _ _ _ _ Hkeep Hrun).
Qed.

(** X3.  [undoAction] touches no record but the one of its token, and never
    adds one.  When it succeeds the record was there, within its window, and
    is gone; when it fails for another reason than expiry the store is
    unchanged, so the undo can be tried again. *)
Theorem undoAction_touches_only_its_token
    (undoStore : gmap string UndoData) (undoToken : string) (now : Z) :
  let result := fst (undoAction gmailApi undoStore undoToken now) in
  let undoStore' := snd (undoAction gmailApi undoStore undoToken now) in
  (forall other, other <> undoToken ->
     undoStore' !! other = undoStore !! other)
  /\ undoStore' ⊆ undoStore
  /\ (undo_success result = true ->
      undoStore' !! undoToken = None
      /\ exists data, undoStore !! undoToken = Some data
                      /\ ¬ expiredAt now data)
  /\ (undo_success result = false ->
      undo_error result <> Some "Undo window has expired" ->
      undoStore' = undoStore).
Proof.
  unfold undoAction.
  destruct (undoStore !! undoToken) as [data |] eqn:Hdata; [| by simpl].
  rewrite expired_test.
  destruct (bool_decide_reflect (expiredAt now data)) as [Hexp | Hexp].
  { simpl. split; [intros; by apply lookup_delete_ne |].
    split; [apply delete_subseteq |]. by split. }
  destruct (u_action data); repeat case_match; simpl;
    solve
      [ by repeat split
      | split; [intros; by apply lookup_delete_ne |];
        split; [apply delete_subseteq |];
        split; [| done]; intros _;
        split; [apply lookup_delete_eq | by exists data] ].
Qed.

(** X4.  A remaining undo time reported by [getRemainingUndoTime] is
    positive, is what is left of the window, and vouches for the token:
    [undoAction] at the same time neither misses the record nor refuses it
    as expired. *)
Theorem remaining_time_vouches_for_undo
    (undoStore : gmap string UndoData) (undoToken : string) (now : Z)
    (remaining : Z) :
  getRemainingUndoTime undoStore undoToken now = Some remaining ->
  (0 < remaining)%Z
  /\ (exists data,
        undoStore !! undoToken = Some data
        /\ remaining
           = (PERFORMANCE.undoWindowMs - (now - u_timestamp data))%Z)
  /\ undo_error (fst (undoAction gmailApi undoStore undoToken now))
     <> Some "Undo window has expired"
  /\ undo_error (fst (undoAction gmailApi undoStore undoToken now))
     <> Some "Undo token not found or expired".
Proof.
  unfold getRemainingUndoTime, undoAction.
  destruct (undoStore !! undoToken) as [data |]; [| done].
  destruct (Z.gtb_spec (PERFORMANCE.undoWindowMs - (now - u_timestamp data)) 0)
    as [Hpos | ?]; [| done].
  intros [= <-]. split; [lia |]. split; [by exists data |].
  rewrite expired_test.
  rewrite bool_decide_eq_false_2 by (unfold expiredAt; lia).
  destruct (u_action data); repeat case_match; simpl; done.
Qed.

(** X5.  The two readings of the window differ at its very end: when
    exactly [undoWindowMs] have elapsed, [getRemainingUndoTime] reports that
    no time is left, while [undoAction] still accepts the token. *)
Theorem window_end_is_read_two_ways
    (undoStore : gmap string UndoData) (undoToken : string) (now : Z)
    (data : UndoData) :
  undoStore !! undoToken = Some data ->
  (now - u_timestamp data = PERFORMANCE.undoWindowMs)%Z ->
  getRemainingUndoTime undoStore undoToken now = None
  /\ undo_error (fst (undoAction gmailApi undoStore undoToken now))
     <> Some "Undo window has expired"
  /\ (u_action data = A_keep \/ u_action data = A_unsubscribe ->
      undoAction gmailApi undoStore undoToken now
      = ({| undo_success := true; undo_error := None |},
         delete undoToken undoStore)).
Proof.
  intros Hdata Hend. unfold getRemainingUndoTime, undoAction.
  rewrite Hdata, expired_test.
  rewrite bool_decide_eq_false_2 by (unfold expiredAt; lia).
  split; [| split].
  - destruct (Z.gtb_spec (PERFORMANCE.undoWindowMs - (now - u_timestamp data)) 0);
      [lia | done].
  - destruct (u_action data); repeat case_match; simpl; done.
  - by intros [-> | ->].
Qed.

(** X7.  [executeAction] never hands a confirmation to the unsubscribe
    engine: on an item the engine deems unsafe, or safe only upon
    confirmation, the [unsubscribe] action reports failure and writes no
    record, whatever the network and the provider would answer. *)
Theorem unsubscribe_action_cannot_be_confirmed
    (undoStore : gmap string UndoData) (uuid engineUuid : string)
    (now now' : Z) (email : NormalizedEmail) (options : option ExecOptions) :
  Unsubscribe.safe (Unsubscribe.checkUnsubscribeSafety email) = false
  \/ Unsubscribe.safety_requiresConfirmation
       (Unsubscribe.checkUnsubscribeSafety email) = true ->
  exists result,
    executeAction fetch parseURL searchParam gmailApi undoStore
      uuid engineUuid now now' A_unsubscribe email options
    = (Resolved result, undoStore)
    /\ success result = false
    /\ undoToken result = None.
Proof.
  intros Hgate. unfold executeAction, Unsubscribe.executeUnsubscribe.
  destruct (Unsubscribe.safe (Unsubscribe.checkUnsubscribeSafety email));
    simpl; [| eexists; by repeat split].
  destruct Hgate as [? | ->]; [done |]. simpl.
  eexists; by repeat split.
Qed.

End ActionFacts.

Section CleanupFacts.
Import Actions.

(** What the loop of [cleanupExpiredUndoTokens] has done after the entries
    [m]: it has counted the expired entries of [m] and removed their
    tokens. *)
Lemma cleanup_loop (undoStore : gmap string UndoData) (now : Z)
    (m : gmap string UndoData) :
  let acc :=
    map_fold
      (λ token data '(cleaned, store),
         if (now - u_timestamp data >? PERFORMANCE.undoWindowMs)%Z
         then (S cleaned, delete token store)
         else (cleaned, store))
      (0, undoStore) m in
  acc.1 = size (filter (λ kv, expiredAt now kv.2) m)
  /\ forall token,
       acc.2 !! token
       = if decide (is_Some (filter (λ kv, expiredAt now kv.2) m !! token))
         then None else undoStore !! token.
Proof.
  pose (P := λ (acc : nat * gmap string UndoData) (m : gmap string UndoData),
    acc.1 = size (filter (λ kv, expiredAt now kv.2) m)
    /\ forall token,
         acc.2 !! token
         = if decide (is_Some (filter (λ kv, expiredAt now kv.2) m !! token))
           then None else undoStore !! token).
  intros acc. change (P acc m). subst acc.
  apply map_fold_weak_ind; unfold P; clear P.
  - rewrite map_filter_empty, map_size_empty. split; [reflexivity |].
    intros token. rewrite lookup_empty.
    by rewrite decide_False by (by intros [? ?]).
  - intros token data m' [cleaned store] Hnew [Hcount Hstore].
    simpl in Hcount, Hstore. rewrite expired_test.
    assert (filter (λ kv, expiredAt now kv.2) m' !! token = None) as Hnone
      by (apply map_lookup_filter_None; by left).
    destruct (bool_decide_reflect (expiredAt now data)) as [Hexp | Hexp]; simpl.
    + rewrite map_filter_insert_True by exact Hexp.
      rewrite map_size_insert_None by exact Hnone.
      split; [by rewrite Hcount |]. intros other.
      destruct (decide (token = other)) as [<- | Hne].
      * rewrite lookup_delete_eq, lookup_insert_eq.
        by rewrite decide_True by (by eexists).
      * rewrite lookup_delete_ne, lookup_insert_ne by exact Hne.
        apply Hstore.
    + rewrite map_filter_insert_False, delete_id by done.
      by split.
Qed.

(** X6.  [cleanupExpiredUndoTokens] removes exactly the records past their
    window and keeps the others as they are; the number it returns is the
    number of records removed; and right after it no token of the store is
    refused by [undoAction] as expired. *)
Theorem cleanup_removes_exactly_the_expired
    (gmailApi : Gmail) (undoStore : gmap string UndoData) (now : Z) :
  let cleaned := fst (cleanupExpiredUndoTokens undoStore now) in
  let undoStore' := snd (cleanupExpiredUndoTokens undoStore now) in
  (forall token,
     undoStore' !! token
     = match undoStore !! token with
       | Some data => if decide (expiredAt now data) then None else Some data
       | None => None
       end)
  /\ size undoStore = cleaned + size undoStore'
  /\ forall token,
       undo_error (fst (undoAction gmailApi undoStore' token now))
       <> Some "Undo window has expired".
Proof.
  intros cleaned undoStore'.
  destruct (cleanup_loop undoStore now undoStore) as [Hcount Hstore].
  fold (cleanupExpiredUndoTokens undoStore now) in Hcount, Hstore.
  fold cleaned in Hcount. fold undoStore' in Hstore.
  assert (forall token,
    undoStore' !! token
    = match undoStore !! token with
      | Some data => if decide (expiredAt now data) then None else Some data
      | None => None
      end) as Hlookup.
  { intros token. rewrite Hstore.
    destruct (undoStore !! token) as [data |] eqn:Hdata.
    - destruct (decide (expiredAt now data)) as [Hexp | Hexp].
      + rewrite decide_True; [done |]. exists data.
        by apply map_lookup_filter_Some.
      + rewrite decide_False; [done |]. intros [data' Hin].
        apply map_lookup_filter_Some in Hin as [Hin Hexp'].
        rewrite Hdata in Hin. by injection Hin as <-.
    - by case_decide. }
  split; [exact Hlookup |]. split.
  - assert (undoStore' = filter (λ kv, ¬ expiredAt now kv.2) undoStore) as ->.
    { apply map_eq. intros token. rewrite Hlookup.
      destruct (undoStore !! token) as [data |] eqn:Hdata.
      - destruct (decide (expiredAt now data)) as [Hexp | Hexp]; symmetry.
        + apply map_lookup_filter_None. right. intros data' Hd.
          rewrite Hdata in Hd. injection Hd as <-. by intros ?.
        + by apply map_lookup_filter_Some.
      - symmetry. apply map_lookup_filter_None. by left. }
    rewrite Hcount, <- map_size_disj_union
      by apply map_disjoint_filter_complement.
    by rewrite map_filter_union_complement.
  - intros token. unfold undoAction. rewrite Hlookup.
    destruct (undoStore !! token) as [data |]; [| done].
    destruct (decide (expiredAt now data)) as [Hexp | Hexp]; [done |].
    rewrite expired_test, bool_decide_eq_false_2 by exact Hexp.
    destruct (u_action data); repeat case_match; simpl; done.
Qed.

End CleanupFacts.

Section ActionWitnesses.
Import Actions Sample.

Lemma delete_then_undo_witness :
  exists result undoStore',
    executeAction deadNetwork (fun _ => None) (fun _ _ => None) quietGmail ∅
      "tok" "tok2" 1000 1000 A_delete (from "shop.example" "m1") None
    = (Resolved result, undoStore')
    /\ success result = true
    /\ undoToken result = Some "tok"
    /\ undoAction quietGmail undoStore' "tok" 2000
       = ({| undo_success := true; undo_error := None |}, ∅)
    /\ undoAction quietGmail ∅ "tok" 3000
       = ({| undo_success := false;
             undo_error := Some "Undo token not found or expired" |},
          ∅).
Proof.
  apply (delete_then_undo_round_trip deadNetwork (fun _ => None)
           (fun _ _ => None) quietGmail ∅ "tok" "tok2" 1000 1000 2000 3000
           (from "shop.example" "m1") None).
  - apply lookup_empty.
  - reflexivity.
  - reflexivity.
  - by vm_compute.
Defined.

Lemma executeAction_records_witness :
  let outcome :=
    fst (executeAction deadNetwork (fun _ => None) (fun _ _ => None)
           quietGmail ∅ "tok" "tok2" 1000 1005 A_block
           (from "shop.example" "m1") None) in
  let undoStore' :=
    snd (executeAction deadNetwork (fun _ => None) (fun _ _ => None)
           quietGmail ∅ "tok" "tok2" 1000 1005 A_block
           (from "shop.example" "m1") None) in
  match outcome with
  | Resolved result =>
      if success result then
        undoToken result = Some "tok"
        /\ undoExpiry result = Some (1000 + PERFORMANCE.undoWindowMs)%Z
        /\ exists data,
             undoStore' = <["tok" := data]> ∅
             /\ u_action data = A_block
             /\ u_emailId data = id (from "shop.example" "m1")
             /\ u_providerId data = providerId (from "shop.example" "m1")
             /\ u_timestamp data = 1005%Z
      else
        undoToken result = None /\ undoExpiry result = None
        /\ undoStore' = ∅
  | Rejected _ => undoStore' = ∅
  end.
Proof.
  apply (executeAction_records_exactly_on_success deadNetwork (fun _ => None)
           (fun _ _ => None) quietGmail ∅ "tok" "tok2" 1000 1005 A_block
           (from "shop.example" "m1") None).
  discriminate.
Defined.

Lemma remaining_time_witness :
  (0 < 10000)%Z
  /\ (exists data,
        mixedStore !! "new" = Some data
        /\ 10000%Z
           = (PERFORMANCE.undoWindowMs - (40000 - u_timestamp data))%Z)
  /\ undo_error (fst (undoAction quietGmail mixedStore "new" 40000))
     <> Some "Undo window has expired"
  /\ undo_error (fst (undoAction quietGmail mixedStore "new" 40000))
     <> Some "Undo token not found or expired".
Proof.
  apply (remaining_time_vouches_for_undo quietGmail mixedStore "new" 40000
           10000).
  by vm_compute.
Defined.

Lemma window_end_witness :
  getRemainingUndoTime mixedStore "new" 50000 = None
  /\ undo_error (fst (undoAction stickyGmail mixedStore "new" 50000))
     <> Some "Undo window has expired"
  /\ (u_action freshRecord = A_keep \/ u_action freshRecord = A_unsubscribe ->
      undoAction stickyGmail mixedStore "new" 50000
      = ({| undo_success := true; undo_error := None |},
         delete "new" mixedStore)).
Proof.
  apply (window_end_is_read_two_ways stickyGmail mixedStore "new" 50000
           freshRecord).
  - by vm_compute.
  - reflexivity.
Defined.

Lemma unsubscribe_action_witness :
  exists result,
    executeAction kindNetwork (fun _ => None) (fun _ _ => None) quietGmail ∅
      "tok" "tok2" 1000 1000 A_unsubscribe shortLink None
    = (Resolved result, ∅)
    /\ success result = false
    /\ undoToken result = None.
Proof.
  apply (unsubscribe_action_cannot_be_confirmed kindNetwork (fun _ => None)
           (fun _ _ => None) quietGmail ∅ "tok" "tok2" 1000 1000 shortLink
           None).
  right. reflexivity.
Defined.

(** The sweep on a store of two records, one of them past its window. *)
Example cleanup_sample :
  fst (cleanupExpiredUndoTokens mixedStore 40000) = 1
  /\ snd (cleanupExpiredUndoTokens mixedStore 40000) !! "old" = None
  /\ snd (cleanupExpiredUndoTokens mixedStore 40000) !! "new"
     = Some freshRecord.
Proof. by vm_compute. Qed.

End ActionWitnesses.

(** ** More on the safety policy and the scorer *)
Section PolicyFacts.
Import JS Detection.

Lemma endsWith_unfold (s p : string) :
  endsWith s p
  = String.eqb s p
    || match s with
       | EmptyString => false
       | String _ s' => endsWith s' p
       end.
Proof. by destruct s. Qed.

Lemma endsWith_refl (s : string) : endsWith s s = true.
Proof. by rewrite endsWith_unfold, String.eqb_refl. Qed.

Lemma endsWith_app (a b : string) : endsWith (a +:+ b) b = true.
Proof.
  induction a as [| c a IH]; [apply endsWith_refl |].
  change (String c a +:+ b) with (String c (a +:+ b)).
  rewrite endsWith_unfold, IH. apply orb_true_r.
Qed.

Lemma matches_domain_spec (lowerDomain d : string) :
  lowerDomain = d \/ (exists sub, lowerDomain = sub +:+ "." +:+ d) ->
  matches_domain lowerDomain d = true.
Proof.
  unfold matches_domain. intros [-> | [sub ->]].
  - by rewrite String.eqb_refl.
  - rewrite endsWith_app. apply orb_true_r.
Qed.

(** X8.  A domain that is, letter case aside, one of the never-nuke
    entries or a subdomain of one (so any domain under [.gov], [.edu] or
    [.mil]) is protected: its category is [never_nuke] whatever the other
    lists hold, no item from it may be blocked, and it may not be nuked. *)
Theorem protected_domains_cover_subdomains
    (domain d : string) (email : NormalizedEmail) :
  d ∈ DOMAIN_SAFETY.neverNuke ->
  toLowerCase domain = d
  \/ (exists sub, toLowerCase domain = sub +:+ "." +:+ d) ->
  getDomainSafetyCategory domain = never_nuke
  /\ nuke_allowed (canNukeDomain domain) = false
  /\ (senderDomain email = domain -> allowed (canBlockSender email) = false).
Proof.
  intros Hin Hmatch.
  assert (getDomainSafetyCategory domain = never_nuke) as Hcat.
  { unfold getDomainSafetyCategory.
    assert (existsb (matches_domain (toLowerCase domain))
              DOMAIN_SAFETY.neverNuke = true) as ->; [| reflexivity].
    apply existsb_exists. exists d.
    split; [by apply list_elem_of_In | by apply matches_domain_spec]. }
  split; [exact Hcat |]. split.
  - unfold canNukeDomain. by rewrite Hcat.
  - intros <-. unfold canBlockSender. rewrite Hcat.
    by repeat case_match.
Qed.

Lemma transactional_type (email : NormalizedEmail)
    (senderStats : option SenderStats) :
  type (detectNewsletter email senderStats) = transactional ->
  isTransactional email = true.
Proof.
  unfold detectNewsletter.
  destruct (isTransactional email); [done |].
  destruct (isLikelyPersonalSender email); [done |].
  simpl. by repeat case_match.
Qed.

Lemma personal_type (email : NormalizedEmail)
    (senderStats : option SenderStats) :
  type (detectNewsletter email senderStats) = personal ->
  isTransactional email = true \/ isLikelyPersonalSender email = true.
Proof.
  unfold detectNewsletter.
  destruct (isTransactional email); [by left |].
  destruct (isLikelyPersonalSender email); [by right |].
  simpl. by repeat case_match.
Qed.

(** X9.  The scorer and the safety gate agree: an item classified
    [transactional] or [personal] passes no sender safety gate, so
    [blockSender] and [executeUnsubscribe] refuse it, with no token, without
    consulting any capability or the network. *)
Theorem classified_protected_is_never_acted_on
    (email : NormalizedEmail) (senderStats : option SenderStats) :
  type (detectNewsletter email senderStats) = transactional
  \/ type (detectNewsletter email senderStats) = personal ->
  allowed (canBlockSender email) = false
  /\ (forall uuid options,
        exists result,
          Block.blockSender uuid email options = Resolved result
          /\ Block.success result = false
          /\ Block.undoToken result = None)
  /\ (forall fetch parseURL searchParam uuid options,
        exists result,
          Unsubscribe.executeUnsubscribe fetch parseURL searchParam
            uuid email options
          = Resolved result
          /\ Unsubscribe.success result = false
          /\ Unsubscribe.undoToken result = None).
Proof.
  intros Htype.
  assert (allowed (canBlockSender email) = false) as Hgate.
  { unfold canBlockSender.
    destruct Htype as [Ht%transactional_type | [Ht | Hp]%personal_type].
    - rewrite Ht. by destruct (isLikelyPersonalSender email).
    - rewrite Ht. by destruct (isLikelyPersonalSender email).
    - by rewrite Hp. }
  split; [exact Hgate |]. split.
  - intros uuid options. unfold Block.blockSender. rewrite Hgate. simpl.
    eexists. by repeat split.
  - intros fetch parseURL searchParam uuid options.
    unfold Unsubscribe.executeUnsubscribe, Unsubscribe.checkUnsubscribeSafety.
    rewrite Hgate. simpl. eexists. by repeat split.
Qed.

Lemma num_or_range (v d : Q) :
  (0 <= v <= 1)%Q -> (0 <= d <= 1)%Q -> (0 <= num_or v d <= 1)%Q.
Proof. unfold num_or. by destruct (Qeq_bool v 0). Qed.

Lemma checkProviderCategory_range (email : NormalizedEmail) :
  (0 <= checkProviderCategory email <= 0.95)%Q.
Proof. unfold checkProviderCategory. repeat case_match; split; q_const. Qed.

Lemma checkSenderDomain_range (email : NormalizedEmail) :
  (0 <= checkSenderDomain email <= 0.9)%Q.
Proof. unfold checkSenderDomain. repeat case_match; split; q_const. Qed.

Lemma bump_range (c : bool) (w score : Q) :
  (0 <= w <= 0.9)%Q -> (0 <= score <= 0.9)%Q ->
  (0 <= bump c w score <= 0.9)%Q.
Proof.
  intros [Hw0 Hw1] [Hs0 Hs1]. unfold bump. destruct c; [| by split]. split.
  - eapply Qle_trans; [exact Hs0 | apply Q.le_max_l].
  - by apply Q.max_lub.
Qed.

Lemma analyzeHeaders_range (email : NormalizedEmail) :
  (0 <= analyzeHeaders email <= 0.9)%Q.
Proof.
  unfold analyzeHeaders.
  repeat (apply bump_range; [split; q_const |]). split; q_const.
Qed.

Lemma Qmin_below (x y : Q) : (x <= y)%Q -> Qmin x y = x.
Proof.
  intros Hle. unfold Qmin, GenericMinMax.gmin.
  destruct (x ?= y)%Q eqn:Hcmp; try reflexivity.
  apply Qgt_alt in Hcmp. by apply Qle_not_lt in Hle.
Qed.

Lemma finalScore_bounds (email : NormalizedEmail)
    (senderStats : option SenderStats) :
  unitStats senderStats ->
  (0 <= finalScore email senderStats)%Q
  /\ (finalScore email senderStats
      <= checkListUnsubscribe email * 0.35 + 0.585)%Q.
Proof.
  intros Hstats. unfold finalScore.
  pose proof (checkListUnsubscribe_range email) as [Hu0 Hu1].
  pose proof (checkProviderCategory_range email) as [Hc0 Hc1].
  pose proof (checkSenderDomain_range email) as [Hd0 Hd1].
  pose proof (analyzeHeaders_range email) as [Hh0 Hh1].
  assert (0 <= match senderStats with
               | Some st => num_or (frequencyScore st) 0
               | None => 0
               end <= 1)%Q as [Hf0 Hf1].
  { destruct senderStats as [st |]; [| split; q_const].
    apply num_or_range; [apply Hstats | split; q_const]. }
  assert (0 <= match senderStats with
               | Some st => num_or (reputationScore st) 0.5
               | None => 0.5
               end <= 1)%Q as [Hr0 Hr1].
  { destruct senderStats as [st |]; [| split; q_const].
    apply num_or_range; [apply Hstats | split; q_const]. }
  set (f := match senderStats with
            | Some st => num_or (frequencyScore st) 0
            | None => 0%Q
            end) in *.
  set (r := match senderStats with
            | Some st => num_or (reputationScore st) 0.5
            | None => 0.5%Q
            end) in *.
  assert (0 <= Qmax r (checkSenderDomain email) <= 1)%Q as [Hm0 Hm1].
  { split; [eapply Qle_trans; [exact Hr0 | apply Q.le_max_l] |].
    apply Q.max_lub; [exact Hr1 |]. eapply Qle_trans; [exact Hd1 | q_const]. }
  set (m := Qmax r (checkSenderDomain email)) in *.
  set (u := checkListUnsubscribe email) in *.
  set (c := checkProviderCategory email) in *.
  set (h := analyzeHeaders email) in *.
  split; lra.
Qed.

(** X10.  With sender statistics inside the unit interval (or none), the
    weighted score lies between 0 and 0.935, the sum of the weights that
    can be earned; so the cap [Math.min(score, 1)] never cuts, and the
    confidence of an item that matches no override is the score itself. *)
Theorem score_never_reaches_the_cap
    (email : NormalizedEmail) (senderStats : option SenderStats) :
  unitStats senderStats ->
  (0 <= finalScore email senderStats <= 0.935)%Q
  /\ (isTransactional email = false ->
      isLikelyPersonalSender email = false ->
      confidence (detectNewsletter email senderStats)
      = finalScore email senderStats).
Proof.
  intros Hstats.
  destruct (finalScore_bounds email senderStats Hstats) as [Hlow Hhigh].
  pose proof (checkListUnsubscribe_range email) as [_ Hu].
  assert (finalScore email senderStats <= 0.935)%Q as Hcap by lra.
  split; [by split |].
  intros Ht Hp. unfold detectNewsletter. rewrite Ht, Hp. simpl.
  apply Qmin_below. lra.
Qed.

(** X11.  With sender statistics inside the unit interval (or none), no
    item is classified [newsletter] unless it carries an unsubscribe header:
    without one the score stays below 0.585. *)
Theorem newsletter_needs_an_unsubscribe_header
    (email : NormalizedEmail) (senderStats : option SenderStats) :
  unitStats senderStats ->
  type (detectNewsletter email senderStats) = newsletter ->
  truthy (http (listUnsubscribe email))
  || truthy (mailto (listUnsubscribe email)) = true.
Proof.
  intros Hstats Htype.
  destruct (truthy (http (listUnsubscribe email))
            || truthy (mailto (listUnsubscribe email))) eqn:Hheader;
    [reflexivity | exfalso].
  destruct (finalScore_bounds email senderStats Hstats) as [_ Hhigh].
  unfold checkListUnsubscribe in Hhigh. rewrite Hheader in Hhigh.
  assert (Qle_bool 0.75 (finalScore email senderStats) = false) as Hbelow.
  { apply not_true_is_false. intros Hle%Qle_bool_iff. lra. }
  revert Htype. unfold detectNewsletter.
  destruct (isTransactional email); [done |].
  destruct (isLikelyPersonalSender email); [done |].
  simpl. rewrite Hbelow. by repeat case_match.
Qed.

Lemma batch_lookup (emails : list NormalizedEmail)
    (senderStatsMap : option (gmap string SenderStats))
    (results : gmap string DetectionResult) (email : NormalizedEmail) :
  NoDup (Buffer.ids emails) ->
  email ∈ emails ->
  batchDetectNewsletters emails senderStatsMap results !! id email
  = Some (detectNewsletter email
            (match senderStatsMap with
             | Some m => m !! sender email
             | None => None
             end)).
Proof.
  revert results. unfold Buffer.ids.
  induction emails as [| e rest IH]; intros results Hdistinct Hin;
    [by apply elem_of_nil in Hin |].
  rewrite fmap_cons in Hdistinct.
  apply NoDup_cons in Hdistinct as [Hfresh Hrest]. simpl.
  apply elem_of_cons in Hin as [-> | Hin]; [| by apply IH].
  clear IH. revert results.
  induction rest as [| e' rest IH']; intros results;
    [apply lookup_insert_eq |].
  rewrite fmap_cons in Hfresh, Hrest.
  apply not_elem_of_cons in Hfresh as [Hne Hfresh].
  apply NoDup_cons in Hrest as [_ Hrest]. simpl.
  rewrite insert_insert_ne by done. by apply IH'.
Qed.

Lemma batch_keys (emails : list NormalizedEmail)
    (senderStatsMap : option (gmap string SenderStats))
    (results : gmap string DetectionResult) (key : string) :
  key ∉ Buffer.ids emails ->
  batchDetectNewsletters emails senderStatsMap results !! key
  = results !! key.
Proof.
  revert results. unfold Buffer.ids.
  induction emails as [| e rest IH]; intros results Hkey; [reflexivity |].
  rewrite fmap_cons in Hkey. apply not_elem_of_cons in Hkey as [Hne Hkey].
  simpl. rewrite IH by exact Hkey. by apply lookup_insert_ne.
Qed.

(** X12.  On a batch of items with distinct identifiers,
    [batchDetectNewsletters] maps the identifier of every item to the
    classification [detectNewsletter] gives that item alone, with the
    statistics recorded for its sender, and maps no other key. *)
Theorem batch_classifies_each_item_alone
    (emails : list NormalizedEmail)
    (senderStatsMap : option (gmap string SenderStats)) :
  NoDup (Buffer.ids emails) ->
  (forall email, email ∈ emails ->
     batchDetectNewsletters emails senderStatsMap ∅ !! id email
     = Some (detectNewsletter email
               (match senderStatsMap with
                | Some m => m !! sender email
                | None => None
                end)))
  /\ (forall key, key ∉ Buffer.ids emails ->
        batchDetectNewsletters emails senderStatsMap ∅ !! key = None).
Proof.
  intros Hdistinct. split.
  - intros email Hin. by apply batch_lookup.
  - intros key Hkey. by rewrite batch_keys.
Qed.

End PolicyFacts.

Section PolicyWitnesses.
Import JS Detection Sample.

Lemma protected_subdomain_witness :
  getDomainSafetyCategory "Mail.Treasury.GOV" = never_nuke
  /\ nuke_allowed (canNukeDomain "Mail.Treasury.GOV") = false
  /\ allowed (canBlockSender (from "Mail.Treasury.GOV" "m1")) = false.
Proof.
  destruct (protected_domains_cover_subdomains "Mail.Treasury.GOV" "gov"
              (from "Mail.Treasury.GOV" "m1")) as (Hcat & Hnuke & Hblock).
  - unfold DOMAIN_SAFETY.neverNuke. set_solver.
  - right. by exists "mail.treasury".
  - split; [exact Hcat |]. split; [exact Hnuke |]. by apply Hblock.
Defined.

Lemma classified_protected_witness :
  allowed (canBlockSender receipt) = false
  /\ (forall uuid options,
        exists result,
          Block.blockSender uuid receipt options = Resolved result
          /\ Block.success result = false
          /\ Block.undoToken result = None)
  /\ (forall fetch parseURL searchParam uuid options,
        exists result,
          Unsubscribe.executeUnsubscribe fetch parseURL searchParam
            uuid receipt options
          = Resolved result
          /\ Unsubscribe.success result = false
          /\ Unsubscribe.undoToken result = None).
Proof.
  apply (classified_protected_is_never_acted_on receipt (Some keenStats)).
  left. by vm_compute.
Defined.

Lemma score_cap_witness :
  (0 <= finalScore digest (Some keenStats) <= 0.935)%Q
  /\ confidence (detectNewsletter digest (Some keenStats))
     = finalScore digest (Some keenStats).
Proof.
  destruct (score_never_reaches_the_cap digest (Some keenStats))
    as [Hrange Hconf].
  - repeat split; q_const.
  - split; [exact Hrange |]. by apply Hconf.
Defined.

Lemma newsletter_header_witness :
  truthy (http (listUnsubscribe digest))
  || truthy (mailto (listUnsubscribe digest)) = true.
Proof.
  apply (newsletter_needs_an_unsubscribe_header digest (Some keenStats)).
  - repeat split; q_const.
  - by vm_compute.
Defined.

Lemma batch_witness :
  (forall email, email ∈ [digest; receipt] ->
     batchDetectNewsletters [digest; receipt] (Some statsMap) ∅ !! id email
     = Some (detectNewsletter email (statsMap !! sender email)))
  /\ (forall key, key ∉ Buffer.ids [digest; receipt] ->
        batchDetectNewsletters [digest; receipt] (Some statsMap) ∅ !! key
        = None).
Proof.
  apply (batch_classifies_each_item_alone [digest; receipt] (Some statsMap)).
  apply (bool_decide_unpack (NoDup (Buffer.ids [digest; receipt]))).
  by vm_compute.
Defined.

End PolicyWitnesses.

(** ** More on the block engine *)
Section NukeFacts.
Import Detection Block.

(** The domain safety gate lets [domain] through with these options. *)
Lemma nuke_gate_open (domain : string) (options : NukeOptions) :
  getDomainSafetyCategory domain <> never_nuke ->
  getDomainSafetyCategory domain <> caution
  \/ confirmCaution options = Some true ->
  negb (nuke_allowed (canNukeDomain domain)) = false
  /\ requiresConfirmation (canNukeDomain domain)
     && negb (default false (confirmCaution options)) = false.
Proof.
  intros Hnever Hcaution. unfold canNukeDomain.
  destruct (getDomainSafetyCategory domain); try done; simpl; split;
    try done.
  destruct Hcaution as [? | ->]; done.
Qed.

(** X13.  The two provider steps of [nukeDomain] are judged differently.
    When the bulk move-to-trash has gone through and the creation of the
    domain filter then fails, the action reports failure, with no token, yet
    reports the messages already moved; when the bulk move-to-trash fails
    and the filter is created, the action reports success with no message
    deleted. *)
Theorem nukeDomain_judges_its_steps_differently
    (uuid domain : string) (options : NukeOptions)
    (senders existingEmails : list string) (filterResult : FilterResult) :
  getDomainSafetyCategory domain <> never_nuke ->
  getDomainSafetyCategory domain <> caution
  \/ confirmCaution options = Some true ->
  getSendersFromDomain options domain = Resolved senders ->
  getEmailsFromDomain options domain = Resolved existingEmails ->
  existingEmails <> [] ->
  createDomainFilter options domain = Resolved filterResult ->
  (nuke_deleteEmails options existingEmails = Resolved true ->
   filter_success filterResult = false ->
   exists result,
     nukeDomain uuid domain options = Resolved result
     /\ success result = false
     /\ undoToken result = None
     /\ nm_emailsDeleted (metadata result) = length existingEmails
     /\ 0 < nm_emailsDeleted (metadata result))
  /\ (nuke_deleteEmails options existingEmails = Resolved false ->
      filter_success filterResult = true ->
      exists result,
        nukeDomain uuid domain options = Resolved result
        /\ success result = true
        /\ undoToken result = Some uuid
        /\ nm_emailsDeleted (metadata result) = 0
        /\ nm_filterId (metadata result) = filter_id filterResult).
Proof.
  intros Hnever Hcaution Hsenders Hemails Hsome Hfilter.
  destruct (nuke_gate_open domain options Hnever Hcaution) as [Hgate Hconfirm].
  assert ((0 <? length existingEmails) = true) as Hlen.
  { apply Nat.ltb_lt. destruct existingEmails; [done | simpl; lia]. }
  unfold nukeDomain. rewrite Hgate, Hconfirm, Hsenders, Hemails. simpl.
  rewrite Hlen. split; intros Hdelete Hsuccess; rewrite Hdelete; simpl;
    rewrite Hfilter; simpl; rewrite Hsuccess; simpl.
  - eexists. repeat split. by apply Nat.ltb_lt in Hlen.
  - eexists. by repeat split.
Qed.

End NukeFacts.

Section NukeWitnesses.
Import Detection Block Sample.

Lemma nukeDomain_steps_witness :
  (exists result,
     nukeDomain "tok" "spam.example" deleteOnly = Resolved result
     /\ success result = false
     /\ undoToken result = None
     /\ nm_emailsDeleted (metadata result) = 3
     /\ 0 < nm_emailsDeleted (metadata result))
  /\ (exists result,
        nukeDomain "tok" "spam.example" filterOnlyNuke = Resolved result
        /\ success result = true
        /\ undoToken result = Some "tok"
        /\ nm_emailsDeleted (metadata result) = 0
        /\ nm_filterId (metadata result) = Some "f9").
Proof.
  split.
  - apply (nukeDomain_judges_its_steps_differently "tok" "spam.example"
             deleteOnly ["a@spam.example"] ["g-1"; "g-2"; "g-3"]
             {| filter_success := false; filter_id := None |});
      try reflexivity; try discriminate.
    left. discriminate.
  - apply (nukeDomain_judges_its_steps_differently "tok" "spam.example"
             filterOnlyNuke ["a@spam.example"] ["g-1"; "g-2"; "g-3"]
             {| filter_success := true; filter_id := Some "f9" |});
      try reflexivity; try discriminate.
    left. discriminate.
Defined.

End NukeWitnesses.

(** ** More on the unsubscribe engine *)
Section UnsubscribeMore.
Import JS Detection Unsubscribe.

Variable fetch : Method -> string -> Z -> FetchOutcome.
Variable parseURL : string -> option (string * string).
Variable searchParam : string -> string -> option string.

Lemma plainFailure_tests (status : Z) :
  plainFailure status ->
  ok_status status = false
  /\ (status =? 405)%Z || (status =? 400)%Z = false.
Proof.
  intros (Hok & H400 & H405). split; [exact Hok |].
  apply orb_false_intro; by apply Z.eqb_neq.
Qed.

(** X14.  A link that does not start with [https://] is refused by the HTTP
    stage without a request being made: the answer does not depend on the
    network; and [executeUnsubscribe] then goes on with the later stages
    exactly as if the item had no link. *)
Theorem plain_http_link_is_never_fetched
    (url : string) (retryCount : Z) (uuid : string)
    (email : NormalizedEmail) (options : Options) :
  startsWith url "https://" = false ->
  (forall network,
     httpUnsubscribe network url retryCount
     = {| http_success := false; http_error := Some OnlyHttps |})
  /\ (http (listUnsubscribe email) = Some url ->
      gateOpen email options ->
      executeUnsubscribe fetch parseURL searchParam uuid email options
      = afterHttp parseURL searchParam uuid email options).
Proof.
  intros Hplain. split.
  - intros network. unfold httpUnsubscribe. by rewrite Hplain.
  - intros Hurl [Hsafe Hconfirm]. unfold executeUnsubscribe.
    rewrite Hsafe, Hurl. simpl negb. cbv iota.
    destruct (safety_requiresConfirmation (checkUnsubscribeSafety email)).
    + rewrite (Hconfirm eq_refl). simpl.
      unfold httpUnsubscribe. rewrite Hplain. simpl.
      by rewrite andb_false_r.
    + simpl. unfold httpUnsubscribe. rewrite Hplain. simpl.
      by rewrite andb_false_r.
Qed.


(** X16.  The POST request is made only after a GET answered 400 or 405.
    When both attempts answer the GET with another failing status, the stage
    fails with the status of the second attempt, whatever a POST would have
    been answered. *)
Theorem post_is_tried_only_after_400_or_405 (url : string) (s0 s1 : Z) :
  startsWith url "https://" = true ->
  fetch GET url 0 = Response s0 -> plainFailure s0 ->
  fetch GET url 1 = Response s1 -> plainFailure s1 ->
  httpUnsubscribe fetch url 0
  = {| http_success := false; http_error := Some (HttpStatus s1) |}.
Proof.
  intros Hhttps Hg0 [Hok0 Hpost0]%plainFailure_tests
    Hg1 [Hok1 Hpost1]%plainFailure_tests.
  unfold httpUnsubscribe, httpPass.
  by rewrite Hhttps, Hg0, Hok0, Hpost0, Hg1, Hok1, Hpost1.
Qed.

(** X17.  Whenever [executeUnsubscribe] resolves, it hands out its token
    exactly when it reports success; the methods [block] and [spam] are only
    ever reported as successful fallbacks, [mailto] as a success that is not
    a fallback, and [provider] never. *)
Theorem unsubscribe_token_goes_with_success
    (uuid : string) (email : NormalizedEmail) (options : Options)
    (result : UnsubscribeResult) :
  executeUnsubscribe fetch parseURL searchParam uuid email options
  = Resolved result ->
  (success result = true -> undoToken result = Some uuid)
  /\ (success result = false -> undoToken result = None)
  /\ (method result = m_block \/ method result = m_spam ->
      success result = true /\ fallbackUsed result = true)
  /\ (method result = m_mailto ->
      success result = true /\ fallbackUsed result = false)
  /\ method result <> m_provider.
Proof.
  unfold executeUnsubscribe, afterHttp, mbind, Settled_bind, mret, Settled_ret.
  intros Hrun.
  repeat case_match; simplify_eq; simpl;
    (split; [done |]); (split; [done |]);
    (split; [by intros [? | ?] |]); (split; [by intros ? |]); done.
Qed.


(** X19.  The fallback chain stops at the first stage that succeeds: when
    the HTTP stage has not succeeded and the mail is sent, the result is a
    [mailto] success that is not a fallback, and neither the block-filter
    nor the spam-mark capability is consulted (the answer is the same
    whatever they are). *)
Theorem mailto_success_ends_the_chain
    (uuid address : string) (email : NormalizedEmail) (options : Options)
    (send : string -> string -> string -> Settled bool) :
  gateOpen email options ->
  httpStepFails fetch email ->
  mailto (listUnsubscribe email) = Some address ->
  address <> "" ->
  sendMailto options = Some send ->
  send (to (prepareMailtoUnsubscribe parseURL searchParam address))
       (mail_subject (prepareMailtoUnsubscribe parseURL searchParam address))
       (body (prepareMailtoUnsubscribe parseURL searchParam address))
  = Resolved true ->
  executeUnsubscribe fetch parseURL searchParam uuid email options
  = Resolved
      {| success := true; method := m_mailto; fallbackUsed := false;
         undoToken := Some uuid;
         metadata := [("mailto", MOptStr (Some address))] |}.
Proof.
  intros [Hsafe Hconfirm] Hhttp Hmailto Hne Hsend Hsent.
  assert (truthy (Some address) = true) as Htruthy.
  { simpl. apply negb_true_iff. by apply String.eqb_neq. }
  assert (afterHttp parseURL searchParam uuid email options
          = Resolved
              {| success := true; method := m_mailto; fallbackUsed := false;
                 undoToken := Some uuid;
                 metadata := [("mailto", MOptStr (Some address))] |})
    as Hafter.
  { unfold afterHttp. by rewrite Hmailto, Hsend, Htruthy, Hsent. }
  unfold executeUnsubscribe. rewrite Hsafe. simpl negb. cbv iota.
  assert (safety_requiresConfirmation (checkUnsubscribeSafety email)
          && negb (default false (confirmUnsafe options)) = false) as ->.
  { destruct (safety_requiresConfirmation (checkUnsubscribeSafety email));
      [| reflexivity].
    by rewrite (Hconfirm eq_refl). }
  unfold httpStepFails in Hhttp.
  destruct (http (listUnsubscribe email)) as [url |]; [| exact Hafter].
  by rewrite Hhttp.
Qed.

(** X20.  The message [prepareMailtoUnsubscribe] prepares never has an empty
    subject or body, whatever the address and whatever the platform's URL
    parser makes of it; when the parser throws, the address is used as it
    is, with the default subject and body. *)
Theorem prepared_mail_is_never_blank (mailtoAddress : string) :
  mail_subject (prepareMailtoUnsubscribe parseURL searchParam mailtoAddress)
  <> ""
  /\ body (prepareMailtoUnsubscribe parseURL searchParam mailtoAddress) <> ""
  /\ (parseURL ("mailto:" +:+ mailtoAddress) = None ->
      prepareMailtoUnsubscribe parseURL searchParam mailtoAddress
      = {| to := mailtoAddress; mail_subject := "unsubscribe";
           body := "unsubscribe" |}).
Proof.
  unfold prepareMailtoUnsubscribe.
  destruct (parseURL ("mailto:" +:+ mailtoAddress)) as [[pathname search] |];
    [| by repeat split].
  simpl. split; [| split; [| done]].
  - destruct (searchParam search "subject") as [value |]; [| done].
    simpl. destruct (String.eqb_spec value ""); simpl; done.
  - destruct (searchParam search "body") as [value |]; [| done].
    simpl. destruct (String.eqb_spec value ""); simpl; done.
Qed.

End UnsubscribeMore.

Section UnsubscribeMoreWitnesses.
Import JS Detection Unsubscribe Sample.

Lemma plain_http_witness :
  (forall network,
     httpUnsubscribe network "http://unsub.example/u" 0
     = {| http_success := false; http_error := Some OnlyHttps |})
  /\ executeUnsubscribe kindNetwork (fun _ => None) (fun _ _ => None)
       "tok" plainLink spamOnly
     = afterHttp (fun _ => None) (fun _ _ => None) "tok" plainLink spamOnly.
Proof.
  destruct (plain_http_link_is_never_fetched kindNetwork (fun _ => None)
              (fun _ _ => None) "http://unsub.example/u" 0 "tok" plainLink
              spamOnly eq_refl) as [Hstage Hrun].
  split; [exact Hstage |]. apply Hrun; [reflexivity |].
  split; [reflexivity | discriminate].
Defined.


Lemma post_only_after_400_witness :
  httpUnsubscribe busyNetwork "https://shop.example/u" 0
  = {| http_success := false; http_error := Some (HttpStatus 503) |}.
Proof.
  apply (post_is_tried_only_after_400_or_405 busyNetwork
           "https://shop.example/u" 503 503);
    try reflexivity; repeat split; discriminate.
Defined.

Lemma unsubscribe_token_witness :
  exists result,
    executeUnsubscribe deadNetwork (fun _ => None) (fun _ _ => None)
      "tok" shortLink spamOnlyConfirmed
    = Resolved result
    /\ (success result = true -> undoToken result = Some "tok")
    /\ (success result = false -> undoToken result = None)
    /\ (method result = m_block \/ method result = m_spam ->
        success result = true /\ fallbackUsed result = true)
    /\ (method result = m_mailto ->
        success result = true /\ fallbackUsed result = false)
    /\ method result <> m_provider.
Proof.
  eexists. split; [reflexivity |].
  apply (unsubscribe_token_goes_with_success deadNetwork (fun _ => None)
           (fun _ _ => None) "tok" shortLink spamOnlyConfirmed).
  reflexivity.
Defined.


Lemma mailto_success_witness :
  executeUnsubscribe deadNetwork (fun _ => None) (fun _ _ => None)
    "tok" mailtoOnly mailWorks
  = Resolved
      {| success := true; method := m_mailto; fallbackUsed := false;
         undoToken := Some "tok";
         metadata := [("mailto", MOptStr (Some "leave@shop.example"))] |}.
Proof.
  apply (mailto_success_ends_the_chain deadNetwork (fun _ => None)
           (fun _ _ => None) "tok" "leave@shop.example" mailtoOnly mailWorks
           (fun _ _ _ => Resolved true)).
  - split; [reflexivity | discriminate].
  - exact I.
  - reflexivity.
  - discriminate.
  - reflexivity.
  - reflexivity.
Defined.

End UnsubscribeMoreWitnesses.

(** ** More on the adaptive buffer *)
Section BufferMore.
Import Buffer.

Implicit Types (b : SwipeBuffer) (w todo : list NormalizedEmail)
  (processed : gset string) (e : NormalizedEmail).

Lemma filter_all {A} (P : A -> Prop) `{!forall a, Decision (P a)}
    (l : list A) :
  (forall a, a ∈ l -> P a) -> filter P l = l.
Proof.
  induction l as [| a l IH]; intros Hall; [reflexivity |].
  rewrite filter_cons_True by (apply Hall; left).
  f_equal. apply IH. intros x Hx. apply Hall. by right.
Qed.

Lemma known_id (q : list NormalizedEmail) (x : NormalizedEmail) :
  Exists (λ existing, id existing = id x) q <-> id x ∈ ids q.
Proof.
  rewrite Exists_exists. unfold ids. rewrite list_elem_of_fmap.
  split; intros (y & H1 & H2); exists y; by split.
Qed.

(** The entries a resolved refill appends. *)
Lemma appended_spec (q newItems : list NormalizedEmail) (x : NormalizedEmail) :
  x ∈ filter (λ newItem, ¬ Exists (λ existing, id existing = id newItem) q)
        newItems
  <-> x ∈ newItems /\ id x ∉ ids q.
Proof. rewrite list_elem_of_filter, known_id. tauto. Qed.


Lemma consumeItem_prefix (i : string) b :
  filter (λ e, id e ≠ i) (fullQueue b)
    `prefix_of` fullQueue (fst (consumeItem i b)).
Proof.
  unfold consumeItem, afterRemoval.
  destruct (_ && _); simpl; [| done].
  unfold refill. simpl.
  destruct (onRefillRequired b (refillCalls b)) as [newItems | reason];
    simpl; [| done].
  by apply prefix_app_r.
Qed.

(** X22.  [consumeItem(id)] keeps every queued entry with another
    identifier, in order and at the head of the queue it leaves; the
    identifier itself is gone from the queue unless the refill the call
    triggers brings it back. *)
Theorem consumeItem_removes_only_its_id (i : string) b :
  filter (λ e, id e ≠ i) (fullQueue b)
    `prefix_of` fullQueue (fst (consumeItem i b))
  /\ ((forall newItems,
         onRefillRequired b (refillCalls b) = Resolved newItems ->
         i ∉ ids newItems) ->
      i ∉ ids (fullQueue (fst (consumeItem i b)))).
Proof.
  assert (i ∉ ids (filter (λ e, id e ≠ i) (fullQueue b))) as Hgone.
  { intros (x & -> & Hx)%list_elem_of_fmap.
    by apply list_elem_of_filter in Hx as [Hx _]. }
  unfold consumeItem, afterRemoval.
  destruct (_ && _); simpl; [| by split].
  unfold refill. simpl.
  destruct (onRefillRequired b (refillCalls b)) as [newItems | reason];
    simpl; [| by split].
  split; [by apply prefix_app_r |].
  intros Hnew. unfold ids. rewrite fmap_app. apply not_elem_of_app.
  split; [exact Hgone |].
  intros (x & -> & Hx)%list_elem_of_fmap.
  apply appended_spec in Hx as [Hx _].
  apply (Hnew newItems eq_refl). by apply list_elem_of_fmap_2.
Qed.

(** X23.  The refill is single-flight and thresholded: [consumeItem] does
    not invoke the callback while a refill is in flight, nor while the
    filtered window holds more than [triggerThreshold] items; it then just
    removes the identifier and resolves.  Otherwise it invokes the callback
    exactly once. *)
Theorem refill_is_single_flight_and_thresholded (i : string) b :
  (isFetching b = true
   \/ triggerThreshold (config b)
      < length (filter (λ item, id (email item) ≠ i) (activeWindow b)) ->
   snd (consumeItem i b) = Resolved tt
   /\ refillCalls (fst (consumeItem i b)) = refillCalls b
   /\ isFetching (fst (consumeItem i b)) = isFetching b
   /\ fullQueue (fst (consumeItem i b)) = filter (λ e, id e ≠ i) (fullQueue b))
  /\ (isFetching b = false ->
      length (filter (λ item, id (email item) ≠ i) (activeWindow b))
        <= triggerThreshold (config b) ->
      refillCalls (fst (consumeItem i b)) = S (refillCalls b)
      /\ isFetching (fst (consumeItem i b)) = false).
Proof.
  unfold consumeItem, afterRemoval. simpl. split.
  - intros Hquiet.
    assert ((length (filter (λ item, id (email item) ≠ i) (activeWindow b))
               <=? triggerThreshold (config b))
            && negb (isFetching b) = false) as ->; [| by repeat split].
    destruct Hquiet as [-> | Hmany]; [apply andb_false_r |].
    apply andb_false_intro1, Nat.leb_gt. exact Hmany.
  - intros Hidle Hlow. apply Nat.leb_le in Hlow. rewrite Hlow, Hidle. simpl.
    unfold refill. simpl.
    by destruct (onRefillRequired b (refillCalls b)).
Qed.

Lemma refill_idle b :
  isFetching (fst (refill b)) = false
  /\ refillCalls (fst (refill b)) = S (refillCalls b).
Proof. unfold refill. by destruct (onRefillRequired _ _). Qed.

Lemma afterRemoval_idle b :
  isFetching b = false ->
  isFetching (fst (afterRemoval b)) = false
  /\ refillCalls (fst (afterRemoval b)) <= S (refillCalls b).
Proof.
  intros Hidle. unfold afterRemoval.
  destruct (_ && _); [| simpl; split; [exact Hidle | lia]].
  destruct (refill_idle b) as [Hf Hc].
  destruct (refill b) as [b' [[] | reason]]; simpl in *; split;
    try done; lia.
Qed.

Lemma runOp_idle (o : Op) b :
  isFetching b = false ->
  isFetching (fst (runOp o b)) = false
  /\ refillCalls (fst (runOp o b)) <= refillCalls b + consumptions [o].
Proof.
  intros Hidle. destruct o; simpl.
  - destruct (afterRemoval_idle
                (set_fullQueue (filter (λ e, id e ≠ i) (fullQueue b))
                   (set_activeWindow
                      (filter (λ item, id (email item) ≠ i) (activeWindow b))
                      b)) Hidle) as [Hf Hc].
    unfold consumeItem. simpl in *. split; [exact Hf | lia].
  - destruct (afterRemoval_idle
                (set_fullQueue
                   (filter (λ e, id e ∉ (list_to_set idList : gset string))
                      (fullQueue b))
                   (set_activeWindow
                      (filter (λ item, id (email item)
                                       ∉ (list_to_set idList : gset string))
                         (activeWindow b))
                      b)) Hidle) as [Hf Hc].
    unfold consumeBatch. simpl in *. split; [exact Hf | lia].
  - split; [exact Hidle | lia].
  - split; [exact Hidle | lia].
Qed.

Lemma consumptions_cons (o : Op) (os : list Op) :
  consumptions (o :: os) = consumptions [o] + consumptions os.
Proof. by destruct o. Qed.

Lemma runOps_idle (os : list Op) b :
  isFetching b = false ->
  isFetching (runOps os b) = false
  /\ refillCalls (runOps os b) <= refillCalls b + consumptions os.
Proof.
  revert b. induction os as [| o os IH]; intros b Hidle;
    [simpl; split; [exact Hidle | lia] |].
  destruct (runOp_idle o b Hidle) as [Hf Hc].
  destruct (IH _ Hf) as [Hf' Hc'].
  rewrite consumptions_cons. simpl runOps. split; [exact Hf' | lia].
Qed.

(** X24.  After any sequence of operations on a freshly constructed buffer,
    each run to completion, no refill is in flight, the configuration is the
    one the buffer was constructed with, and the callback has been invoked
    at most once per consuming operation. *)
Theorem operations_leave_the_buffer_idle
    (initialEmails : list NormalizedEmail)
    (onRefill : nat -> Settled (list NormalizedEmail))
    (partialConfig : PartialConfig) (os : list Op) :
  let b := runOps os (construct initialEmails onRefill partialConfig) in
  isFetching b = false
  /\ refillCalls b <= consumptions os
  /\ config b = mergeConfig partialConfig.
Proof.
  intros b.
  destruct (runOps_idle os (construct initialEmails onRefill partialConfig)
              eq_refl) as [Hf Hc].
  split; [exact Hf |]. split; [exact Hc |].
  unfold b. by rewrite runOps_config.
Qed.

Lemma groupIntoBosses_head e (l : list NormalizedEmail) :
  exists item items,
    groupIntoBosses (e :: l) = item :: items /\ email item = e.
Proof.
  unfold groupIntoBosses. rewrite groupLoop_cons.
  rewrite decide_False by set_solver.
  assert (sameDomainOf (e :: l) ∅ e = e :: sameDomainOf l ∅ e) as Hsame.
  { unfold sameDomainOf. rewrite filter_cons_True; [done |].
    split; [done | set_solver]. }
  rewrite Hsame. destruct (5 <=? _); eexists _, _; by split.
Qed.

Lemma splice_in_front {A} (x : A) (l : list A) : splice_in 0 x l = x :: l.
Proof.
  unfold splice_in. simpl.
  by replace (Z.to_nat (Z.min 0 (Z.of_nat (length l)))) with 0 by lia.
Qed.

(** X25.  What the consumer sees first is what was queued first: after
    [addItem(email)] (index 0) the entry heads the backing queue, and, the
    window size being positive, the first item of the window has it as its
    representative, collapsed or not. *)
Theorem addItem_puts_the_entry_first e b :
  0 < windowSize (config b) ->
  fullQueue (addItem e 0 b) = e :: fullQueue b
  /\ exists item items,
       activeWindow (addItem e 0 b) = item :: items /\ email item = e.
Proof.
  intros Hsize. unfold addItem. simpl. rewrite splice_in_front.
  split; [reflexivity |].
  destruct (windowSize (config b)) as [| n]; [lia |]. simpl.
  apply groupIntoBosses_head.
Qed.

Lemma splice_in_filter {A} (P : A -> Prop) `{!forall a, Decision (P a)}
    (index : Z) (x : A) (l : list A) :
  ¬ P x -> filter P (splice_in index x l) = filter P l.
Proof.
  intros Hx. unfold splice_in.
  rewrite filter_app, filter_cons_False, <- filter_app by exact Hx.
  by rewrite take_drop.
Qed.

(** X26.  Putting an entry back and consuming it again gives the queue
    back: when its identifier is not in the queue, [addItem(email, index)]
    followed by [consumeItem(email.id)] leaves a queue that starts with the
    queue as it was, and is that queue when the refill the consumption may
    trigger brings nothing (it resolves with no entry, or is rejected). *)
Theorem addItem_then_consume_restores_the_queue e (index : Z) b :
  id e ∉ ids (fullQueue b) ->
  fullQueue b `prefix_of` fullQueue (fst (consumeItem (id e) (addItem e index b)))
  /\ (onRefillRequired b (refillCalls b) = Resolved []
      \/ (exists reason, onRefillRequired b (refillCalls b) = Rejected reason) ->
      fullQueue (fst (consumeItem (id e) (addItem e index b))) = fullQueue b).
Proof.
  intros Hfresh.
  assert (filter (λ x, id x ≠ id e) (fullQueue (addItem e index b))
          = fullQueue b) as Hback.
  { unfold addItem. simpl. rewrite splice_in_filter by (by intros ?).
    apply filter_all. intros x Hx Heq. apply Hfresh. rewrite <- Heq.
    by apply list_elem_of_fmap_2. }
  split.
  - rewrite <- Hback at 1. apply consumeItem_prefix.
  - intros Hnothing. unfold consumeItem, afterRemoval.
    destruct (_ && _); simpl; [| exact Hback].
    unfold refill. simpl.
    destruct Hnothing as [-> | [reason ->]]; simpl.
    + rewrite app_nil_r. exact Hback.
    + exact Hback.
Qed.

(** X27.  After [nukeDomain(domain)] no item of the window stands for an
    entry of that domain, and nuking the same domain again changes
    nothing. *)
Theorem nukeDomain_clears_the_window (domain : string) b :
  (forall item, item ∈ activeWindow (nukeDomain domain b) ->
     senderDomain (email item) ≠ domain)
  /\ nukeDomain domain (nukeDomain domain b) = nukeDomain domain b.
Proof.
  split.
  - intros item Hitem. unfold nukeDomain, syncWindow in Hitem.
    simpl in Hitem. unfold groupIntoBosses in Hitem.
    apply groupLoop_items in Hitem as [Hin _]; [| done].
    apply subseteq_take in Hin.
    by apply list_elem_of_filter in Hin as [Hne _].
  - unfold nukeDomain, syncWindow. simpl.
    rewrite list_filter_filter.
    by rewrite (list_filter_iff
                  (λ x, senderDomain x ≠ domain ∧ senderDomain x ≠ domain)
                  (λ x, senderDomain x ≠ domain)) by tauto.
Qed.

(** X28.  Consuming a batch of one identifier is consuming that
    identifier. *)
Theorem consumeBatch_of_one_is_consumeItem (i : string) b :
  consumeBatch [i] b = consumeItem i b.
Proof.
  assert (forall x : string, x ∉ (list_to_set [i] : gset string) <-> x ≠ i)
    as Hone.
  { intros x. by rewrite elem_of_list_to_set, list_elem_of_singleton. }
  unfold consumeBatch, consumeItem.
  rewrite (list_filter_iff
             (λ item, id (email item) ∉ (list_to_set [i] : gset string))
             (λ item, id (email item) ≠ i)) by (intros; apply Hone).
  by rewrite (list_filter_iff
                (λ x, id x ∉ (list_to_set [i] : gset string))
                (λ x, id x ≠ i)) by (intros; apply Hone).
Qed.

End BufferMore.

(** *** Every entry of the window is accounted for once *)
Section ExactCover.
Import Buffer.

Variable w : list NormalizedEmail.
Hypothesis distinct : NoDup (ids w).

Implicit Types (todo : list NormalizedEmail) (processed : gset string)
  (e x : NormalizedEmail).

Lemma one_entry_per_id (l : list NormalizedEmail) e :
  NoDup (ids l) -> e ∈ l ->
  length (filter (λ x, id x = id e) l) = 1.
Proof.
  unfold ids. induction l as [| a l IH]; intros Hl He;
    [by apply elem_of_nil in He |].
  rewrite fmap_cons in Hl. apply NoDup_cons in Hl as [Ha Hl].
  apply elem_of_cons in He as [-> | He].
  - rewrite filter_cons_True by done.
    rewrite (filter_none (λ x, id x = id a) l); [reflexivity |].
    intros (x & Hx & Hid)%Exists_exists. apply Ha. rewrite <- Hid.
    by apply list_elem_of_fmap_2.
  - rewrite filter_cons_False; [by apply IH |].
    intros Hid. apply Ha. rewrite Hid. by apply list_elem_of_fmap_2.
Qed.

Lemma pending_single_exact processed e :
  e ∈ w -> id e ∉ processed ->
  length (pending processed w)
  = 1 + length (pending (processed ∪ {[id e]}) w).
Proof using distinct.
  intros He Hfresh. unfold pending.
  rewrite (filter_length_split (λ x, id x ∉ processed)
             (λ x, id x = id e) w).
  f_equal.
  - rewrite <- (one_entry_per_id w e distinct He).
    f_equal. apply filter_ext_in. intros x _. split; [by intros [? _] |].
    intros Hid. split; [exact Hid | by rewrite Hid].
  - f_equal. apply filter_ext_in. intros x _.
    rewrite elem_of_union, elem_of_singleton. tauto.
Qed.

Lemma pending_group_exact processed e :
  length (pending processed w)
  = length (sameDomainOf w processed e)
    + length (pending
                (processed ∪ list_to_set (ids (sameDomainOf w processed e)))
                w).
Proof using distinct.
  unfold pending at 1.
  rewrite (filter_length_split (λ x, id x ∉ processed)
             (λ x, senderDomain x = senderDomain e) w).
  f_equal. f_equal. unfold pending. apply filter_ext_in. intros x Hx.
  rewrite elem_of_union, elem_of_list_to_set. split.
  - intros [Hout Hdom] [Hin | (y & Hid & Hy)%list_elem_of_fmap]; [done |].
    apply list_elem_of_filter in Hy as [[Hd _] Hy].
    apply Hdom. by rewrite (id_determines w distinct x y Hx Hy Hid).
  - intros Hnot. split; [tauto |].
    intros Hdom. apply Hnot. right. apply list_elem_of_fmap_2.
    apply list_elem_of_filter. split; [| exact Hx].
    split; [exact Hdom | tauto].
Qed.

Lemma groupLoop_exact todo processed :
  todo ⊆ w ->
  (forall x, x ∈ w -> id x ∉ processed -> x ∈ todo) ->
  sum_list (expanded <$> groupLoop w processed todo)
  = length (pending processed w).
Proof using distinct.
  revert processed. induction todo as [| e todo IH];
    intros processed Hsub Hall.
  - simpl. unfold pending. rewrite filter_none; [reflexivity |].
    intros (x & Hx & Hout)%Exists_exists.
    apply (Hall x Hx) in Hout. by apply elem_of_nil in Hout.
  - assert (e ∈ w) as He by (apply Hsub; left).
    assert (todo ⊆ w) as Hsub' by (intros x Hx; apply Hsub; by right).
    rewrite groupLoop_cons.
    destruct (decide (id e ∈ processed)) as [Hseen | Hnew].
    + apply IH; [exact Hsub' |]. intros x Hx Hout.
      assert (x ∈ e :: todo) as [-> | Hin]%elem_of_cons by (by apply Hall);
        done.
    + destruct (5 <=? length (sameDomainOf w processed e));
        rewrite expanded_cons.
      * change (expanded (boss _ _))
          with (length (sameDomainOf w processed e)).
        rewrite (pending_group_exact processed e). f_equal.
        apply IH; [exact Hsub' |]. intros x Hx Hout.
        apply not_elem_of_union in Hout as [Hout Hother].
        assert (x ∈ e :: todo) as [-> | Hin]%elem_of_cons
          by (by apply Hall); [| done].
        destruct Hother. apply elem_of_list_to_set, list_elem_of_fmap_2.
        by apply list_elem_of_filter.
      * change (expanded (single e)) with 1.
        rewrite (pending_single_exact processed e He Hnew). f_equal.
        apply IH; [exact Hsub' |]. intros x Hx Hout.
        apply not_elem_of_union in Hout as [Hout Hother].
        assert (x ∈ e :: todo) as [-> | Hin]%elem_of_cons
          by (by apply Hall); [| done].
        destruct Hother. by apply elem_of_singleton.
Qed.

End ExactCover.

Section WindowShape.
Import Buffer.

Implicit Types (w todo : list NormalizedEmail) (processed : gset string)
  (e : NormalizedEmail).

Lemma groupLoop_marks w processed todo (item : BufferItem) :
  item ∈ groupLoop w processed todo ->
  match isBossField item with
  | Some true => exists n, groupCount item = Some n /\ 5 <= n
  | Some false => False
  | None => groupCount item = None
  end.
Proof.
  revert processed. induction todo as [| e todo IH]; intros processed;
    [by intros ?%elem_of_nil |].
  rewrite groupLoop_cons. case_decide; [apply IH |].
  destruct (Nat.leb_spec 5 (length (sameDomainOf w processed e)));
    intros [-> | Hin]%elem_of_cons; try (by eapply IH); simpl; eauto.
Qed.

(** X29.  On a window whose entries have distinct identifiers, the items
    [groupIntoBosses] emits account for every entry exactly once: the
    numbers of entries they stand for add up to the length of the window.
    Whatever the window, an item marked as a group stands for five entries
    or more, and an item that is not marked carries no count. *)
Theorem grouping_accounts_for_every_entry w :
  (NoDup (ids w) ->
   sum_list (expanded <$> groupIntoBosses w) = length w)
  /\ forall item, item ∈ groupIntoBosses w ->
       match isBossField item with
       | Some true => exists n, groupCount item = Some n /\ 5 <= n
       | Some false => False
       | None => groupCount item = None
       end.
Proof.
  split.
  - intros Hdistinct. unfold groupIntoBosses.
    rewrite (groupLoop_exact w Hdistinct) by done.
    unfold pending. f_equal. apply filter_all. set_solver.
  - apply groupLoop_marks.
Qed.

Lemma groupLoop_all_processed w processed todo :
  (forall x, x ∈ todo -> id x ∈ processed) ->
  groupLoop w processed todo = [].
Proof.
  induction todo as [| e todo IH]; intros Hall; [reflexivity |].
  rewrite groupLoop_cons, decide_True by (apply Hall; left).
  apply IH. intros x Hx. apply Hall. by right.
Qed.

Lemma one_domain_window e (l : list NormalizedEmail) :
  (forall x, x ∈ l -> senderDomain x = senderDomain e) ->
  4 <= length l ->
  groupIntoBosses (e :: l) = [boss e (S (length l))].
Proof.
  intros Hdomain Hlen. unfold groupIntoBosses. rewrite groupLoop_cons.
  rewrite decide_False by apply not_elem_of_empty.
  assert (sameDomainOf (e :: l) ∅ e = e :: l) as ->.
  { apply filter_all. intros x [-> | Hx]%elem_of_cons;
      (split; [| apply not_elem_of_empty]); [done | by apply Hdomain]. }
  simpl length. destruct (Nat.leb_spec 5 (S (length l))); [| lia].
  simpl hd. f_equal. apply groupLoop_all_processed.
  intros x Hx. apply elem_of_union. right.
  apply elem_of_list_to_set. unfold ids. rewrite fmap_cons. right.
  by apply list_elem_of_fmap_2.
Qed.

(** X30.  A queue whose entries all come from one domain shows as a single
    collapsed item, headed by the first entry, as soon as five of them or
    more fall inside the window; its count is the number of entries inside
    the window, not the number queued. *)
Theorem one_domain_queue_shows_one_item
    e (rest : list NormalizedEmail)
    (onRefill : nat -> Settled (list NormalizedEmail))
    (partialConfig : PartialConfig) :
  (forall x, x ∈ rest -> senderDomain x = senderDomain e) ->
  5 <= windowSize (mergeConfig partialConfig) ->
  4 <= length rest ->
  activeWindow (construct (e :: rest) onRefill partialConfig)
  = [boss e (windowSize (mergeConfig partialConfig) `min` S (length rest))].
Proof.
  intros Hdomain Hsize Hlen.
  unfold construct, syncWindow, set_activeWindow.
  cbn [activeWindow fullQueue config].
  destruct (windowSize (mergeConfig partialConfig)) as [| n] eqn:Hws;
    [lia |].
  cbn [firstn]. rewrite one_domain_window.
  - by rewrite length_take.
  - intros x Hx. apply Hdomain. by apply (subseteq_take n).
  - rewrite length_take. lia.
Qed.

End WindowShape.

(** *** The window after any sequence of operations *)
Section ProjectionFacts.
Import Buffer.


End ProjectionFacts.

Section BufferMoreWitnesses.
Import Buffer Sample.



(** The sample sequence leaves six entries, none of them grouped. *)
Example sample_sequence_window :
  email <$> activeWindow
              (runOps sampleOps (construct mixedQueue steadySource noConfig))
  = [ from "d.example" "11"; from "a.example" "1"; from "a.example" "3";
      from "a.example" "8"; from "c.example" "10"; from "b.example" "9" ].
Proof. by vm_compute. Qed.


(** The refill of the sample buffer appends the one entry it did not hold. *)
Example refill_sample :
  id <$> fullQueue (fst (refill fedBuffer))
  = ["1"; "2"; "3"; "4"; "5"; "6"; "7"; "8"; "9"; "10"].
Proof. by vm_compute. Qed.

Lemma addItem_first_witness :
  fullQueue (addItem (from "c.example" "10") 0 fedBuffer)
  = from "c.example" "10" :: fullQueue fedBuffer
  /\ exists item items,
       activeWindow (addItem (from "c.example" "10") 0 fedBuffer)
       = item :: items
       /\ email item = from "c.example" "10".
Proof.
  apply (addItem_puts_the_entry_first (from "c.example" "10") fedBuffer).
  vm_compute. lia.
Defined.

Lemma addItem_consume_witness :
  fullQueue starvedBuffer
    `prefix_of` fullQueue
                  (fst (consumeItem (id (from "c.example" "10"))
                          (addItem (from "c.example" "10") 3 starvedBuffer)))
  /\ (onRefillRequired starvedBuffer (refillCalls starvedBuffer) = Resolved []
      \/ (exists reason,
            onRefillRequired starvedBuffer (refillCalls starvedBuffer)
            = Rejected reason) ->
      fullQueue
        (fst (consumeItem (id (from "c.example" "10"))
                (addItem (from "c.example" "10") 3 starvedBuffer)))
      = fullQueue starvedBuffer).
Proof.
  apply (addItem_then_consume_restores_the_queue (from "c.example" "10") 3
           starvedBuffer).
  apply (bool_decide_unpack
           (id (from "c.example" "10") ∉ ids (fullQueue starvedBuffer))).
  by vm_compute.
Defined.

Lemma one_domain_witness :
  activeWindow floodBuffer = [boss (from "spam.example" "1") (10 `min` 12)].
Proof.
  change (activeWindow
            (construct
               (from "spam.example" "1"
                :: (from "spam.example"
                      <$> ["2"; "3"; "4"; "5"; "6"; "7"; "8"; "9"; "10";
                           "11"; "12"]))
               brokenSource narrowConfig)
          = [boss (from "spam.example" "1")
               (windowSize (mergeConfig narrowConfig)
                `min` S (length
                           (from "spam.example"
                              <$> ["2"; "3"; "4"; "5"; "6"; "7"; "8"; "9";
                                   "10"; "11"; "12"])))]).
  apply (one_domain_queue_shows_one_item (from "spam.example" "1")
           (from "spam.example"
              <$> ["2"; "3"; "4"; "5"; "6"; "7"; "8"; "9"; "10"; "11"; "12"])
           brokenSource narrowConfig).
  - intros x (i & -> & _)%list_elem_of_fmap. reflexivity.
  - vm_compute. lia.
  - vm_compute. lia.
Defined.

End BufferMoreWitnesses.
